(** * The background worker of a FELT node

    A shallow embedding of [src/felt/node/background_worker.py]: the
    coroutine [producer], the coroutine [task] (ledger reads at start-up,
    then the connect / exchange loops over a websocket) and [main].

    Everything outside the file (the Ethereum node behind [w3], the contract
    registry behind [load_contracts], the coordination server behind
    [websockets.connect]) is a [World]: an oracle that answers each external
    call, with a value or with the exception the call raises.  The coroutine
    [task] is a transition function [step] over the program points of its
    body; [task w n] is the state after [n] transitions. *)

From Stdlib Require Import List String ZArith Bool Arith Lia.
Import ListNotations.
Open Scope string_scope.
Open Scope list_scope.

(** ** Python values and exceptions *)

(** The exception classes the worker can meet.  [ConnectionClosedOK] and
    [ConnectionClosedError] are the two subclasses of
    [websockets.ConnectionClosed] (a clean close by the peer, and a close
    with an error or without a closing handshake). *)
Inductive Exn : Type :=
| TypeError (msg : string)
| KeyError (key : string)
| ConnectionClosedOK
| ConnectionClosedError
| OSError (msg : string)          (* ConnectionRefusedError, TimeoutError, ... *)
| InvalidHandshake (msg : string) (* the server answered, but not as a websocket *)
| LedgerError (msg : string).     (* whatever web3 or the HTTP provider raises *)

(** [isinstance(e, websockets.ConnectionClosed)]: what the clause
    [except websockets.ConnectionClosed] of line 37 tests. *)
Definition isinstance_ConnectionClosed (e : Exn) : bool :=
  match e with
  | ConnectionClosedOK | ConnectionClosedError => true
  | _ => false
  end.

Inductive Result (A : Type) : Type :=
| Ok (a : A)
| Raise (e : Exn).
Arguments Ok {A} a.
Arguments Raise {A} e.

(** The object [w3.eth.contract(address=..., abi=...)] returns. *)
Record Contract : Type := mkContract {
  contract_address : string;
  contract_abi : string
}.

(** One value of the dict [load_contracts] returns: a dict with the keys
    ["address"] and ["abi"] (line 23 reads both), to which line 23 adds the
    key ["obj"]. *)
Record Entry : Type := mkEntry {
  address : string;
  abi : string;
  obj : option Contract
}.

(** A Python dict with string keys, in insertion order. *)
Definition Dict (V : Type) : Type := list (string * V).

Fixpoint getitem {V : Type} (k : string) (d : Dict V) : Result V :=
  match d with
  | [] => Raise (KeyError k)
  | (k', v) :: d' => if String.eqb k k' then Ok v else getitem k d'
  end.

(** [d[k] = f(d[k])] for a key that is present; the keys and their order
    stay. *)
Fixpoint update {V : Type} (k : string) (f : V -> V) (d : Dict V) : Dict V :=
  match d with
  | [] => []
  | (k', v) :: d' =>
      if String.eqb k k' then (k', f v) :: d' else (k', v) :: update k f d'
  end.

Definition set_obj (o : Contract) (c : Entry) : Entry :=
  mkEntry (address c) (abi c) (Some o).

Definition getitem_obj (c : Entry) : Result Contract :=
  match obj c with
  | Some o => Ok o
  | None => Raise (KeyError "obj")
  end.

Inductive PyObj : Type :=
| PyNone
| PyInt (z : Z)
| PyStr (s : string)
| PyContract (c : Contract).

(** ** The world outside the process *)

(** What the ledger side answers at one instant. [load_contracts] is
    [felt.node.utils.contracts.load_contracts], which is not part of the
    file: it is taken as it is used, a lookup from the chain id to a dict of
    entries, built anew by each call. *)
Record Ledger : Type := mkLedger {
  eth_chain_id : Result Z;
  load_contracts : Z -> Result (Dict Entry);
  eth_contract : string -> string -> Result Contract;
  activationFee_call : Contract -> Result Z
}.

(** The node at [ETH_NODE] (line 10) and the server at [URL] (line 9), the
    two constants of the file.  Every external call is answered by the
    world at the instant [t] the call is made; [t] is the number of
    external calls made before it.  A call that never answers is not
    modelled. *)
Record World : Type := mkWorld {
  ledger : nat -> Ledger;
  ws_connect : nat -> option Exn;                 (* None: the server accepted *)
  ws_send : nat -> nat -> string -> option Exn;   (* instant, session, message *)
  ws_recv : nat -> nat -> Result string           (* instant, session *)
}.

(** ** What the process does, as seen from outside *)

Inductive Event : Type :=
| EvPrint (args : list PyObj)
| EvSleep (seconds : Z)
| EvYield (cmd : string)            (* [producer] returned [cmd] to line 31 *)
| EvConnect (ws : nat)              (* session [ws] is established *)
| EvSend (ws : nat) (msg : string)
| EvRecv (ws : nat) (msg : string)
| EvClose (ws : nat).               (* [__aexit__] of the [async with] *)

(** ** Program points of [task] *)

(** How the [async with] block of line 28 is left. *)
Inductive Leave : Type :=
| Continue                (* line 38: back to the head of the outer loop *)
| Propagate (e : Exn).    (* an exception no clause caught *)

Inductive Control : Type :=
| AtStartup                              (* lines 19-25 *)
| AtConnect                              (* lines 27-28 *)
| AtProducer (ws : nat)                  (* line 31 *)
| AtSend (ws : nat) (cmd : string)       (* line 33 *)
| AtRecv (ws : nat) (cmd : string)       (* line 34 *)
| AtPrint (ws : nat)                     (* line 35 *)
| AtExcept (ws : nat) (e : Exn)          (* line 37: [e] was raised in the [try] *)
| AtExit (ws : nat) (k : Leave)          (* leaving the [async with] *)
| Raised (e : Exn).                      (* [task] ended with the exception [e] *)

Record State : Type := mkState {
  control : Control;
  contracts : Dict Entry;     (* the local variable [contracts] *)
  live : list nat;            (* the sessions that are open *)
  opened : nat;               (* how many sessions were opened so far *)
  clock : nat;                (* how many external calls were made so far *)
  trace : list Event          (* oldest event first *)
}.

Definition init : State := mkState AtStartup [] [] 0 0 [].

Definition goto (c : Control) (st : State) : State :=
  mkState c (contracts st) (live st) (opened st) (clock st) (trace st).

(** ** A state and error monad for straight-line code *)

Definition M (A : Type) : Type := State -> Result A * State.

Definition ret {A : Type} (a : A) : M A := fun st => (Ok a, st).

Definition raise {A : Type} (e : Exn) : M A := fun st => (Raise e, st).

Definition bind {A B : Type} (m : M A) (f : A -> M B) : M B :=
  fun st =>
    match m st with
    | (Ok a, st') => f a st'
    | (Raise e, st') => (Raise e, st')
    end.

Notation "x <- m ;; k" := (bind m (fun x => k))
  (at level 61, m at next level, right associativity).
Notation "m ;; k" := (bind m (fun _ => k))
  (at level 61, right associativity).

Definition lift {A : Type} (r : Result A) : M A := fun st => (r, st).

Definition emit (ev : Event) : M unit :=
  fun st =>
    (Ok tt, mkState (control st) (contracts st) (live st) (opened st)
                    (clock st) (trace st ++ [ev])).

(** The instant of an external call; the clock advances. *)
Definition tick : M nat :=
  fun st =>
    (Ok (clock st), mkState (control st) (contracts st) (live st) (opened st)
                            (S (clock st)) (trace st)).

Definition get_contracts : M (Dict Entry) := fun st => (Ok (contracts st), st).

Definition set_contracts (d : Dict Entry) : M unit :=
  fun st =>
    (Ok tt, mkState (control st) d (live st) (opened st) (clock st) (trace st)).

(** ** [producer], lines 13-15 *)

(** [await asyncio.sleep(3)], then [return "p"]; the parameter is not read. *)
Definition producer (federated_contract : PyObj) : M string :=
  emit (EvSleep 3) ;;
  ret "p".

(** What Python raises when [producer] is called with no argument. *)
Definition missing_argument : Exn :=
  TypeError
    "producer() missing 1 required positional argument: 'federated_contract'".

(** Calling the coroutine function: Python binds the arguments to the one
    parameter of the [def] before any of the body runs, and raises
    [TypeError] when their number is not one. *)
Definition call_producer (args : list PyObj) : M string :=
  match args with
  | [a] => producer a
  | [] => raise missing_argument
  | _ :: _ :: _ =>
      raise (TypeError
        "producer() takes 1 positional argument but more were given")
  end.

(** ** The start-up reads of [task], lines 19-25 *)

Section Startup.
Variable w : World.

(** [w3.eth.chain_id]: one request to the node. *)
Definition w3_eth_chain_id : M Z :=
  t <- tick ;; lift (eth_chain_id (ledger w t)).

Definition call_load_contracts (chain : Z) : M (Dict Entry) :=
  t <- tick ;; lift (load_contracts (ledger w t) chain).

Definition w3_eth_contract (a b : string) : M Contract :=
  t <- tick ;; lift (eth_contract (ledger w t) a b).

Definition call_activationFee (o : Contract) : M Z :=
  t <- tick ;; lift (activationFee_call (ledger w t) o).

(** Lines 22-23: [for k, c in contracts.items():
    contracts[k]["obj"] = w3.eth.contract(address=c["address"], abi=c["abi"])]. *)
Fixpoint bind_contracts (items : Dict Entry) : M unit :=
  match items with
  | [] => ret tt
  | (k, c) :: rest =>
      o <- w3_eth_contract (address c) (abi c) ;;
      d <- get_contracts ;;
      set_contracts (update k (set_obj o) d) ;;
      bind_contracts rest
  end.

(** Line 25: [print("Fee:",
    contracts["ContractManager"]["obj"].functions.activationFee().call())]. *)
Definition print_fee : M unit :=
  d <- get_contracts ;;
  cm <- lift (getitem "ContractManager" d) ;;
  o <- lift (getitem_obj cm) ;;
  fee <- call_activationFee o ;;
  emit (EvPrint [PyStr "Fee:"; PyInt fee]).

Definition startup : M unit :=
  (* line 19 builds the client [w3]; no request is made *)
  chain <- w3_eth_chain_id ;;                              (* line 20 *)
  emit (EvPrint [PyStr "Chain id"; PyInt chain]) ;;
  chain' <- w3_eth_chain_id ;;                             (* line 21 *)
  d <- call_load_contracts chain' ;;
  set_contracts d ;;
  bind_contracts d ;;                                      (* lines 22-23 *)
  print_fee.                                               (* line 25 *)
End Startup.

(** ** One transition of [task] *)

Definition open_session (st : State) : State :=
  mkState (AtProducer (opened st)) (contracts st) (opened st :: live st)
          (S (opened st)) (S (clock st)) (trace st ++ [EvConnect (opened st)]).

Definition close_session (ws : nat) (c : Control) (st : State) : State :=
  mkState c (contracts st) (List.remove Nat.eq_dec ws (live st)) (opened st)
          (clock st) (trace st ++ [EvClose ws]).

(** The [except] clause of lines 37-38, for an exception raised in the
    [try] block: a [ConnectionClosed] is caught and [continue] leaves the
    block; anything else goes on propagating. *)
Definition except_clause (e : Exn) : Leave :=
  if isinstance_ConnectionClosed e then Continue else Propagate e.

Definition step (w : World) (st : State) : State :=
  match control st with
  | AtStartup =>
      match startup w st with
      | (Ok _, st') => goto AtConnect st'
      | (Raise e, st') => goto (Raised e) st'
      end
  | AtConnect =>
      (* [async with websockets.connect(URL) as websocket]: the connection
         is made on entering the block, before the [try] of line 29 *)
      match ws_connect w (clock st) with
      | None => open_session st
      | Some e => goto (Raised e) (snd (tick st))
      end
  | AtProducer ws =>
      (* [cmd = await producer()]: no argument is passed *)
      match call_producer [] st with
      | (Ok cmd, st') => goto (AtSend ws cmd) (snd (emit (EvYield cmd) st'))
      | (Raise e, st') => goto (AtExcept ws e) st'
      end
  | AtSend ws cmd =>
      (* [await websocket.send(cmd)] *)
      match ws_send w (clock st) ws cmd with
      | None => goto (AtRecv ws cmd) (snd ((tick ;; emit (EvSend ws cmd)) st))
      | Some e => goto (AtExcept ws e) (snd (tick st))
      end
  | AtRecv ws cmd =>
      (* [rec = await websocket.recv()] *)
      match ws_recv w (clock st) ws with
      | Ok rec => goto (AtPrint ws) (snd ((tick ;; emit (EvRecv ws rec)) st))
      | Raise e => goto (AtExcept ws e) (snd (tick st))
      end
  | AtPrint ws =>
      (* [print("Received")]; [rec] is not read *)
      goto (AtProducer ws) (snd (emit (EvPrint [PyStr "Received"]) st))
  | AtExcept ws e => goto (AtExit ws (except_clause e)) st
  | AtExit ws k =>
      match k with
      | Continue => close_session ws AtConnect st
      | Propagate e => close_session ws (Raised e) st
      end
  | Raised _ => st
  end.

Fixpoint steps (w : World) (n : nat) (st : State) : State :=
  match n with
  | O => st
  | S n' => steps w n' (step w st)
  end.

(** [task()] observed after [n] transitions. *)
Definition task (w : World) (n : nat) : State := steps w n init.

(** [main] is [asyncio.run(task())]: it returns or raises as [task] does. *)
Definition main (w : World) (n : nat) : State := task w n.

(** The exception [task] ended with, if it has ended. *)
Definition outcome (st : State) : option Exn :=
  match control st with
  | Raised e => Some e
  | _ => None
  end.

(** ** Concrete worlds *)

Module Worlds.

Definition registry : Dict Entry :=
  [ ("ContractManager", mkEntry "0xC0FFEE" "abi-manager" None);
    ("FELToken", mkEntry "0xF00D" "abi-token" None) ].

(** A node that answers: chain 1337, two deployed contracts, fee 100. *)
Definition node_up : Ledger :=
  mkLedger (Ok 1337%Z) (fun _ => Ok registry)
           (fun a b => Ok (mkContract a b)) (fun _ => Ok 100%Z).

(** Nothing listens on [ETH_NODE]. *)
Definition node_down : Ledger :=
  mkLedger (Raise (LedgerError "ConnectionError")) (fun _ => Ok registry)
           (fun a b => Ok (mkContract a b))
           (fun _ => Raise (LedgerError "ConnectionError")).

(** The server accepts every connection and answers every message. *)
Definition accepting (answer : string) : World :=
  mkWorld (fun _ => node_up) (fun _ => None) (fun _ _ _ => None)
          (fun _ _ => Ok answer).

(** The server never accepts a connection. *)
Definition refusing : World :=
  mkWorld (fun _ => node_up)
          (fun _ => Some (OSError "ConnectionRefusedError"))
          (fun _ _ _ => None) (fun _ _ => Ok "plan").

(** The server accepts, answers R1 to what it is sent first, and then
    closes the socket cleanly.  With the six start-up reads at the
    instants 0 to 5 and the connection at 6, a first send would be at
    instant 7 and its answer at 8; every later receive meets the close. *)
Definition closing_after_first_reply : World :=
  mkWorld (fun _ => node_up) (fun _ => None) (fun _ _ _ => None)
          (fun t _ => if Nat.leb t 8 then Ok "R1" else Raise ConnectionClosedOK).

(** The node at [ETH_NODE] cannot be reached. *)
Definition ledger_unreachable : World :=
  mkWorld (fun _ => node_down) (fun _ => None) (fun _ _ _ => None)
          (fun _ _ => Ok "plan").

End Worlds.

(** * Notions the properties are stated with *)

(** ** Effects of straight-line code on a state *)

(** The state [st] after [k] more external calls, with the local
    [contracts] now [d] and the events [evs] added. *)
Definition upd (st : State) (d : Dict Entry) (k : nat) (evs : list Event)
  : State :=
  mkState (control st) d (live st) (opened st) (k + clock st)
          (trace st ++ evs).

Definition is_print (ev : Event) : bool :=
  match ev with
  | EvPrint _ => true
  | _ => false
  end.

(** Two worlds whose ledgers answer alike from the instants of two states
    on. *)
Definition aligned (w1 w2 : World) (st1 st2 : State) : Prop :=
  forall t, ledger w1 (t + clock st1) = ledger w2 (t + clock st2).

(** ** Monitors: properties of a trace, read event by event *)

(** The state of the monitor [f] after the trace [tr], if [f] allowed
    every event of it. *)
Fixpoint monitor {S : Type} (f : S -> Event -> option S) (s : S)
  (tr : list Event) : option S :=
  match tr with
  | [] => Some s
  | ev :: tr' =>
      match f s ev with
      | Some s' => monitor f s' tr'
      | None => None
      end
  end.

Definition accepts {S : Type} (f : S -> Event -> option S) (s : S)
  (tr : list Event) : bool :=
  match monitor f s tr with
  | Some _ => true
  | None => false
  end.

(** *** Sessions follow one another *)

(** The session the control is inside of. *)
Definition session_of (c : Control) : option nat :=
  match c with
  | AtStartup | AtConnect | Raised _ => None
  | AtProducer ws | AtSend ws _ | AtRecv ws _ | AtPrint ws
  | AtExcept ws _ | AtExit ws _ => Some ws
  end.

(** The monitor keeps the session that is open, if any, and a bound above
    every session seen so far.  A session may be opened only when none is
    open and under a number not seen before; it is used and closed only
    while it is the open one. *)
Definition session_step (s : option nat * nat) (ev : Event)
  : option (option nat * nat) :=
  match ev, fst s with
  | EvConnect ws, None =>
      if Nat.leb (snd s) ws then Some (Some ws, S ws) else None
  | EvConnect _, Some _ => None
  | EvClose ws, Some cur =>
      if Nat.eqb cur ws then Some (None, snd s) else None
  | (EvSend ws _ | EvRecv ws _), Some cur =>
      if Nat.eqb cur ws then Some s else None
  | (EvClose _ | EvSend _ _ | EvRecv _ _), None => None
  | (EvPrint _ | EvSleep _ | EvYield _), _ => Some s
  end.

Definition sessions_sequential (tr : list Event) : bool :=
  accepts session_step (None, 0) tr.

Definition session_inv (st : State) : Prop :=
  monitor session_step (None, 0) (trace st)
    = Some (session_of (control st), opened st) /\
  live st = match session_of (control st) with
            | Some ws => [ws]
            | None => []
            end.

(** *** Commands and responses alternate *)

Inductive Phase : Type :=
| NoSession
| Idle (ws : nat)                      (* connected, nothing in flight *)
| Yielded (ws : nat) (cmd : string)    (* [cmd] produced, not yet sent *)
| Awaiting (ws : nat) (cmd : string).  (* [cmd] sent, its response is due *)

Definition phase_session (p : Phase) : option nat :=
  match p with
  | NoSession => None
  | Idle ws | Yielded ws _ | Awaiting ws _ => Some ws
  end.

(** What may come next in each phase.  A produced command is the next
    thing sent, on the open session; the next thing after a send is one
    receive on the same session; only then may the next command be
    produced.  Closing the session drops what is in flight. *)
Definition exchange_step (p : Phase) (ev : Event) : option Phase :=
  match ev, p with
  | EvConnect ws, NoSession => Some (Idle ws)
  | (EvPrint _ | EvSleep _), (NoSession | Idle _) => Some p
  | EvYield cmd, Idle ws => Some (Yielded ws cmd)
  | EvSend ws' msg, Yielded ws cmd =>
      if Nat.eqb ws ws' && String.eqb cmd msg then Some (Awaiting ws cmd)
      else None
  | EvRecv ws' _, Awaiting ws _ =>
      if Nat.eqb ws ws' then Some (Idle ws) else None
  | EvClose ws', (Idle ws | Yielded ws _ | Awaiting ws _) =>
      if Nat.eqb ws ws' then Some NoSession else None
  | _, _ => None
  end.

Definition framed (tr : list Event) : bool := accepts exchange_step NoSession tr.

(** The phase the trace must be in at each program point. *)
Definition phase_at (c : Control) (p : Phase) : Prop :=
  match c with
  | AtStartup | AtConnect | Raised _ => p = NoSession
  | AtProducer ws | AtPrint ws => p = Idle ws
  | AtSend ws cmd => p = Yielded ws cmd
  | AtRecv ws cmd => p = Awaiting ws cmd
  | AtExcept ws _ | AtExit ws _ => phase_session p = Some ws
  end.

Definition framing_inv (st : State) : Prop :=
  exists p, monitor exchange_step NoSession (trace st) = Some p /\
            phase_at (control st) p.

(** ** Runs that differ in the payloads received only *)

(** The messages sent, oldest first, each with its session. *)
Definition sent (tr : list Event) : list (nat * string) :=
  flat_map (fun ev => match ev with
                      | EvSend ws msg => [(ws, msg)]
                      | _ => []
                      end) tr.

(** An event without the payload of what was received. *)
Definition erase (ev : Event) : Event :=
  match ev with
  | EvRecv ws _ => EvRecv ws EmptyString
  | _ => ev
  end.

Definition similar (st1 st2 : State) : Prop :=
  control st1 = control st2 /\
  contracts st1 = contracts st2 /\
  live st1 = live st2 /\
  opened st1 = opened st2 /\
  clock st1 = clock st2 /\
  map erase (trace st1) = map erase (trace st2).

(** Two worlds that answer alike, except for what the payload of a
    response is: where one raises on a receive the other raises the same,
    where one delivers the other delivers (anything). *)
Definition same_but_payloads (w1 w2 : World) : Prop :=
  (forall t, ledger w1 t = ledger w2 t) /\
  (forall t, ws_connect w1 t = ws_connect w2 t) /\
  (forall t ws msg, ws_send w1 t ws msg = ws_send w2 t ws msg) /\
  (forall t ws,
     match ws_recv w1 t ws, ws_recv w2 t ws with
     | Ok _, Ok _ => True
     | Raise e1, Raise e2 => e1 = e2
     | _, _ => False
     end).

(** ** States inside a session

    Two states of the exchange loop past line 31, as they would be had
    [producer] returned; no run of [task] from [init] gets there. *)

(** Session 0 is open; ["p"] went out and R1 came back, ["p"] went out
    again and its answer is awaited. *)
Definition awaiting_second_reply : State :=
  mkState (AtRecv 0 "p") Worlds.registry [0] 1 10
          [EvConnect 0; EvSleep 3; EvYield "p"; EvSend 0 "p"; EvRecv 0 "R1";
           EvPrint [PyStr "Received"]; EvSleep 3; EvYield "p"; EvSend 0 "p"].

(** Session 0 is open and the command ["p"] is about to be sent on it. *)
Definition about_to_send : State :=
  mkState (AtSend 0 "p") Worlds.registry [0] 1 7
          [EvConnect 0; EvSleep 3; EvYield "p"].

(** ** Reading the configuration twice *)

(** What was added to the trace between two states. *)
Definition printed_since (st st' : State) : list Event :=
  skipn (List.length (trace st)) (trace st').

(** ** What a successful start-up leaves in [contracts] *)

(** The registry answers with dicts: no key twice. *)
Definition dict_registry (w : World) : Prop :=
  forall t chain d,
    load_contracts (ledger w t) chain = Ok d -> NoDup (map fst d).

(** [items'] is [items], entry by entry in the same order, each with the
    key ["obj"] set to what [w3.eth.contract] answered for the address and
    the abi of that entry; the first entry was bound at the instant [t],
    the next one at the instant after, and so on. *)
Fixpoint bound_from (w : World) (t : nat) (items items' : Dict Entry) : Prop :=
  match items, items' with
  | [], [] => True
  | (k, c) :: rest, (k', c') :: rest' =>
      k' = k /\ address c' = address c /\ abi c' = abi c /\
      (exists o, eth_contract (ledger w t) (address c) (abi c) = Ok o /\
                 obj c' = Some o) /\
      bound_from w (S t) rest rest'
  | _, _ => False
  end.

(** ** Events of the exchange *)

(** The events of lines 31 to 35: the sleep inside [producer], its result,
    a send, a receive. *)
Definition is_exchange (ev : Event) : bool :=
  match ev with
  | EvSleep _ | EvYield _ | EvSend _ _ | EvRecv _ _ => true
  | EvPrint _ | EvConnect _ | EvClose _ => false
  end.

(** Nothing of the exchange has happened, and control is at a program
    point from which, line 31 raising as it does, nothing of it can. *)
Definition before_exchange (st : State) : Prop :=
  existsb is_exchange (trace st) = false /\
  match control st with
  | AtStartup | AtConnect => opened st = 0
  | AtProducer _ | Raised _ => True
  | AtExcept _ e => e = missing_argument
  | AtExit _ k => k = Propagate missing_argument
  | AtSend _ _ | AtRecv _ _ | AtPrint _ => False
  end.

(** Besides, the calls made so far are those of start-up and at most one
    more. *)
Definition one_attempt (w : World) (st : State) : Prop :=
  before_exchange st /\
  match control st with
  | AtStartup => st = init
  | AtConnect => clock st = clock (task w 1)
  | _ => clock st <= 1 + clock (task w 1)
  end.

(** ** Runs that differ in the activation fee only *)

(** Two worlds that answer alike, except for the value the call of
    [activationFee] returns: where one raises the other raises the same,
    where one returns a fee the other returns one (any). *)
Definition same_but_fee (w1 w2 : World) : Prop :=
  (forall t, eth_chain_id (ledger w1 t) = eth_chain_id (ledger w2 t)) /\
  (forall t chain,
     load_contracts (ledger w1 t) chain = load_contracts (ledger w2 t) chain) /\
  (forall t a b,
     eth_contract (ledger w1 t) a b = eth_contract (ledger w2 t) a b) /\
  (forall t o,
     match activationFee_call (ledger w1 t) o,
           activationFee_call (ledger w2 t) o with
     | Ok _, Ok _ => True
     | Raise e1, Raise e2 => e1 = e2
     | _, _ => False
     end) /\
  (forall t, ws_connect w1 t = ws_connect w2 t) /\
  (forall t ws msg, ws_send w1 t ws msg = ws_send w2 t ws msg) /\
  (forall t ws, ws_recv w1 t ws = ws_recv w2 t ws).

(** An event without the fee line 25 printed. *)
Definition erase_fee (ev : Event) : Event :=
  match ev with
  | EvPrint [PyStr label; PyInt _] =>
      if String.eqb label "Fee:" then EvPrint [PyStr label] else ev
  | _ => ev
  end.

Definition similar_but_fee (st1 st2 : State) : Prop :=
  control st1 = control st2 /\
  contracts st1 = contracts st2 /\
  live st1 = live st2 /\
  opened st1 = opened st2 /\
  clock st1 = clock st2 /\
  map erase_fee (trace st1) = map erase_fee (trace st2).

(** ** More concrete worlds *)

(** A node that answers, with the activation fee [fee]; the server accepts
    and answers. *)
Definition charging (fee : Z) : World :=
  mkWorld (fun _ => mkLedger (Ok 1337%Z) (fun _ => Ok Worlds.registry)
                             (fun a b => Ok (mkContract a b))
                             (fun _ => Ok fee))
          (fun _ => None) (fun _ _ _ => None) (fun _ _ => Ok "plan").

(** A registry in which no contract is named ["ContractManager"]. *)
Definition registry_without_manager : Dict Entry :=
  [ ("FELToken", mkEntry "0xF00D" "abi-token" None);
    ("ProjectContract", mkEntry "0xBEEF" "abi-project" None) ].

Definition node_without_manager : Ledger :=
  mkLedger (Ok 1337%Z) (fun _ => Ok registry_without_manager)
           (fun a b => Ok (mkContract a b)) (fun _ => Ok 100%Z).

Definition without_manager : World :=
  mkWorld (fun _ => node_without_manager) (fun _ => None) (fun _ _ _ => None)
          (fun _ _ => Ok "plan").

(** ** A send or a receive that raises *)

(** Control is at the send of line 33 or at the receive of line 34, on the
    session [ws], and the call the world is about to answer raises [e]. *)
Definition exchange_raises (w : World) (st : State) (ws : nat) (e : Exn)
  : Prop :=
  (exists cmd,
     control st = AtSend ws cmd /\ ws_send w (clock st) ws cmd = Some e) \/
  (exists cmd,
     control st = AtRecv ws cmd /\ ws_recv w (clock st) ws = Raise e).

(** ** A start-up read that fails *)

(** Binding the entries of [items] one after the other from the instant
    [t] on, one of them raises [e], those before it having been bound. *)
Fixpoint binding_raises (w : World) (t : nat) (items : Dict Entry) (e : Exn)
  : Prop :=
  match items with
  | [] => False
  | (_, c) :: rest =>
      eth_contract (ledger w t) (address c) (abi c) = Raise e \/
      ((exists o, eth_contract (ledger w t) (address c) (abi c) = Ok o) /\
       binding_raises w (S t) rest e)
  end.

(** What the world must answer for one of the reads of lines 20 to 25 to
    fail with [e], the reads before it having succeeded: the reads are
    made from the instant 0 on, in the order of the source. *)
Inductive startup_read_fails (w : World) : Exn -> Prop :=
| chain_id_fails (e : Exn) :
    (* line 20: the node does not answer the first request *)
    eth_chain_id (ledger w 0) = Raise e ->
    startup_read_fails w e
| chain_id_again_fails (chain : Z) (e : Exn) :
    (* line 21: nor the second *)
    eth_chain_id (ledger w 0) = Ok chain ->
    eth_chain_id (ledger w 1) = Raise e ->
    startup_read_fails w e
| registry_fails (chain chain' : Z) (e : Exn) :
    (* line 21: [load_contracts] raises *)
    eth_chain_id (ledger w 0) = Ok chain ->
    eth_chain_id (ledger w 1) = Ok chain' ->
    load_contracts (ledger w 2) chain' = Raise e ->
    startup_read_fails w e
| binding_fails (chain chain' : Z) (d : Dict Entry) (e : Exn) :
    (* line 23: [w3.eth.contract] raises for one of the entries *)
    eth_chain_id (ledger w 0) = Ok chain ->
    eth_chain_id (ledger w 1) = Ok chain' ->
    load_contracts (ledger w 2) chain' = Ok d ->
    binding_raises w 3 d e ->
    startup_read_fails w e
| manager_missing (chain chain' : Z) (d d' : Dict Entry) :
    (* line 25: the registry names no ["ContractManager"] *)
    eth_chain_id (ledger w 0) = Ok chain ->
    eth_chain_id (ledger w 1) = Ok chain' ->
    load_contracts (ledger w 2) chain' = Ok d ->
    bound_from w 3 d d' ->
    ~ In "ContractManager" (map fst d) ->
    startup_read_fails w (KeyError "ContractManager")
| fee_fails (chain chain' : Z) (d d' : Dict Entry) (cm : Entry)
    (o : Contract) (e : Exn) :
    (* line 25: the call of [activationFee] raises *)
    eth_chain_id (ledger w 0) = Ok chain ->
    eth_chain_id (ledger w 1) = Ok chain' ->
    load_contracts (ledger w 2) chain' = Ok d ->
    NoDup (map fst d) ->
    bound_from w 3 d d' ->
    getitem "ContractManager" d' = Ok cm ->
    obj cm = Some o ->
    activationFee_call (ledger w (3 + List.length d)) o = Raise e ->
    startup_read_fails w e.

(** A node that answers until the call of [activationFee], which reverts. *)
Definition node_fee_reverts : Ledger :=
  mkLedger (Ok 1337%Z) (fun _ => Ok Worlds.registry)
           (fun a b => Ok (mkContract a b))
           (fun _ => Raise (LedgerError "ContractLogicError")).

Definition fee_reverts : World :=
  mkWorld (fun _ => node_fee_reverts) (fun _ => None) (fun _ _ _ => None)
          (fun _ _ => Ok "plan").

(** * Properties of the embedding *)

(** ** Running the transition function *)

Lemma steps_add (w : World) (n m : nat) (st : State) :
  steps w (n + m) st = steps w m (steps w n st).
Proof. revert st; induction n as [|n IH]; simpl; intros; auto. Qed.

Lemma steps_succ (w : World) (n : nat) (st : State) :
  steps w (S n) st = step w (steps w n st).
Proof.
  replace (S n) with (n + 1) by lia.
  rewrite steps_add. reflexivity.
Qed.

Lemma step_raised (w : World) (st : State) (e : Exn) :
  control st = Raised e -> step w st = st.
Proof. intros H. unfold step. rewrite H. reflexivity. Qed.

Lemma steps_raised (w : World) (n : nat) (st : State) (e : Exn) :
  control st = Raised e -> steps w n st = st.
Proof.
  intros H. induction n as [|n IH]; simpl; auto.
  rewrite (step_raised w st e H). exact IH.
Qed.

(** An invariant that every transition keeps holds along every run. *)
Lemma steps_invariant (P : State -> Prop) (w : World) :
  (forall st, P st -> P (step w st)) ->
  forall n st, P st -> P (steps w n st).
Proof.
  intros Hstep n. induction n as [|n IH]; simpl; intros st H; auto.
Qed.

(** ** What the start-up reads depend on *)

Lemma aligned_upd (w1 w2 : World) (st1 st2 : State) d1 d2 k evs1 evs2 :
  aligned w1 w2 st1 st2 ->
  aligned w1 w2 (upd st1 d1 k evs1) (upd st2 d2 k evs2).
Proof.
  intros H t. unfold upd; simpl.
  rewrite !Nat.add_assoc. apply H.
Qed.

Lemma upd_upd (st : State) d d' k k' evs evs' :
  upd (upd st d k evs) d' k' evs' = upd st d' (k' + k) (evs ++ evs').
Proof.
  unfold upd; simpl. f_equal; [lia | now rewrite app_assoc].
Qed.

Lemma upd_id (st : State) : st = upd st (contracts st) 0 [].
Proof. destruct st; unfold upd; simpl. now rewrite app_nil_r. Qed.

Lemma tick_upd (st : State) :
  tick st = (Ok (clock st), upd st (contracts st) 1 []).
Proof. destruct st; unfold tick, upd; simpl. now rewrite app_nil_r. Qed.

Lemma emit_upd (ev : Event) (st : State) :
  emit ev st = (Ok tt, upd st (contracts st) 0 [ev]).
Proof. reflexivity. Qed.

Lemma set_contracts_upd (d : Dict Entry) (st : State) :
  set_contracts d st = (Ok tt, upd st d 0 []).
Proof. destruct st; unfold set_contracts, upd; simpl. now rewrite app_nil_r. Qed.

Lemma w3_eth_chain_id_upd (w : World) (st : State) :
  w3_eth_chain_id w st =
    (eth_chain_id (ledger w (clock st)), upd st (contracts st) 1 []).
Proof. unfold w3_eth_chain_id, bind. now rewrite tick_upd. Qed.

Lemma call_load_contracts_upd (w : World) (chain : Z) (st : State) :
  call_load_contracts w chain st =
    (load_contracts (ledger w (clock st)) chain, upd st (contracts st) 1 []).
Proof. unfold call_load_contracts, bind. now rewrite tick_upd. Qed.

Lemma w3_eth_contract_upd (w : World) (a b : string) (st : State) :
  w3_eth_contract w a b st =
    (eth_contract (ledger w (clock st)) a b, upd st (contracts st) 1 []).
Proof. unfold w3_eth_contract, bind. now rewrite tick_upd. Qed.

Lemma call_activationFee_upd (w : World) (o : Contract) (st : State) :
  call_activationFee w o st =
    (activationFee_call (ledger w (clock st)) o, upd st (contracts st) 1 []).
Proof. unfold call_activationFee, bind. now rewrite tick_upd. Qed.

Section Coupling.
Variables w1 w2 : World.

Lemma bind_contracts_coupled (items : Dict Entry) :
  forall st1 st2,
    aligned w1 w2 st1 st2 ->
    contracts st1 = contracts st2 ->
    exists r d k,
      bind_contracts w1 items st1 = (r, upd st1 d k []) /\
      bind_contracts w2 items st2 = (r, upd st2 d k []).
Proof.
  induction items as [|[key c] rest IH]; intros st1 st2 Hal Hd.
  - exists (Ok tt), (contracts st1), 0. simpl. unfold ret.
    split; [now rewrite <- upd_id | rewrite Hd; now rewrite <- upd_id].
  - simpl. unfold bind. rewrite !w3_eth_contract_upd.
    pose proof (Hal 0) as H0. simpl in H0. rewrite H0.
    destruct (eth_contract (ledger w2 (clock st2)) (address c) (abi c))
      as [o|e].
    + unfold get_contracts. rewrite !set_contracts_upd, !upd_upd.
      cbn [contracts upd Nat.add app].
      destruct (IH (upd st1 (update key (set_obj o) (contracts st1)) 1 [])
                   (upd st2 (update key (set_obj o) (contracts st2)) 1 []))
        as (r & d & k & E1 & E2).
      * now apply aligned_upd.
      * simpl. now rewrite Hd.
      * exists r, d, (k + 1). rewrite E1, E2, !upd_upd. auto.
    + exists (Raise e), (contracts st1), 1. rewrite Hd. auto.
Qed.

Lemma print_fee_coupled (st1 st2 : State) :
  aligned w1 w2 st1 st2 ->
  contracts st1 = contracts st2 ->
  exists r k evs,
    print_fee w1 st1 = (r, upd st1 (contracts st1) k evs) /\
    print_fee w2 st2 = (r, upd st2 (contracts st2) k evs) /\
    forallb is_print evs = true.
Proof.
  intros Hal Hd. unfold print_fee, bind, get_contracts, lift.
  rewrite <- Hd.
  destruct (getitem "ContractManager" (contracts st1)) as [cm|e].
  2:{ exists (Raise e), 0, []. rewrite <- upd_id, Hd, <- upd_id. auto. }
  destruct (getitem_obj cm) as [o|e].
  2:{ exists (Raise e), 0, []. rewrite <- upd_id, Hd, <- upd_id. auto. }
  rewrite !call_activationFee_upd.
  pose proof (Hal 0) as H0. simpl in H0. rewrite H0.
  destruct (activationFee_call (ledger w2 (clock st2)) o) as [fee|e].
  - rewrite !emit_upd, !upd_upd. cbn [contracts upd Nat.add app].
    exists (Ok tt), 1, [EvPrint [PyStr "Fee:"; PyInt fee]].
    rewrite Hd. auto.
  - exists (Raise e), 1, []. rewrite Hd. auto.
Qed.

(** The start-up reads, run from two states at which the ledgers answer
    alike, give the same result, make the same number of calls, print the
    same, and leave the same [contracts] (or leave it untouched, when they
    fail before line 21 assigns it). *)
Lemma startup_coupled (st1 st2 : State) :
  aligned w1 w2 st1 st2 ->
  exists r od k evs,
    startup w1 st1 =
      (r, upd st1 (match od with Some d => d | None => contracts st1 end)
              k evs) /\
    startup w2 st2 =
      (r, upd st2 (match od with Some d => d | None => contracts st2 end)
              k evs) /\
    forallb is_print evs = true /\
    (r = Ok tt -> od <> None).
Proof.
  intros Hal. unfold startup, bind.
  rewrite !w3_eth_chain_id_upd.
  pose proof (Hal 0) as H0. simpl in H0. rewrite H0.
  destruct (eth_chain_id (ledger w2 (clock st2))) as [chain|e].
  2:{ exists (Raise e), None, 1, []. repeat split; auto; discriminate. }
  rewrite !emit_upd, !w3_eth_chain_id_upd, !upd_upd.
  cbn [contracts clock upd Nat.add app].
  pose proof (Hal 1) as H1. simpl in H1. rewrite H1.
  destruct (eth_chain_id (ledger w2 (S (clock st2)))) as [chain'|e].
  2:{ exists (Raise e), None, 2, [EvPrint [PyStr "Chain id"; PyInt chain]].
      repeat split; auto; discriminate. }
  rewrite !call_load_contracts_upd, !upd_upd.
  cbn [contracts clock upd Nat.add app].
  pose proof (Hal 2) as H2. simpl in H2. rewrite H2.
  destruct (load_contracts (ledger w2 (S (S (clock st2)))) chain') as [d|e].
  2:{ exists (Raise e), None, 3, [EvPrint [PyStr "Chain id"; PyInt chain]].
      repeat split; auto; discriminate. }
  rewrite !set_contracts_upd, !upd_upd. cbn [Nat.add app].
  destruct (bind_contracts_coupled d
              (upd st1 d 3 [EvPrint [PyStr "Chain id"; PyInt chain]])
              (upd st2 d 3 [EvPrint [PyStr "Chain id"; PyInt chain]]))
    as (r & d' & k & E1 & E2); [now apply aligned_upd | reflexivity |].
  rewrite E1, E2, !upd_upd. cbn [Nat.add app].
  destruct r as [[]|e].
  2:{ exists (Raise e), (Some d'), (k + 3),
        [EvPrint [PyStr "Chain id"; PyInt chain]].
      repeat split; auto; discriminate. }
  destruct (print_fee_coupled
              (upd st1 d' (k + 3) [EvPrint [PyStr "Chain id"; PyInt chain]])
              (upd st2 d' (k + 3) [EvPrint [PyStr "Chain id"; PyInt chain]]))
    as (r & k' & evs & F1 & F2 & Hp); [now apply aligned_upd | reflexivity |].
  rewrite F1, F2, !upd_upd. cbn [contracts upd Nat.add app].
  exists r, (Some d'), (k' + (k + 3)),
    (EvPrint [PyStr "Chain id"; PyInt chain] :: evs).
  repeat split; auto; discriminate.
Qed.
End Coupling.

Lemma startup_run (w : World) (st : State) :
  exists r d k evs,
    startup w st = (r, upd st d k evs) /\ forallb is_print evs = true.
Proof.
  assert (Hal : aligned w w st st) by (intros t; reflexivity).
  destruct (startup_coupled w w st st Hal) as (r & od & k & evs & E & _ & Hp & _).
  do 4 eexists. split; eassumption.
Qed.

(** ** Monitors *)

Lemma monitor_app {S : Type} (f : S -> Event -> option S) (tr tr' : list Event) :
  forall s,
    monitor f s (tr ++ tr') =
    match monitor f s tr with
    | Some s' => monitor f s' tr'
    | None => None
    end.
Proof.
  induction tr as [|ev tr IH]; simpl; intros s; auto.
  destruct (f s ev); auto.
Qed.

Lemma monitor_snoc {S : Type} (f : S -> Event -> option S) (tr : list Event)
  (ev : Event) (s s' : S) :
  monitor f s tr = Some s' -> monitor f s (tr ++ [ev]) = f s' ev.
Proof.
  intros H. rewrite monitor_app, H. simpl. destruct (f s' ev); auto.
Qed.

Lemma monitor_prints {S : Type} (f : S -> Event -> option S) (s : S) :
  (forall args, f s (EvPrint args) = Some s) ->
  forall evs, forallb is_print evs = true -> monitor f s evs = Some s.
Proof.
  intros Hf evs. induction evs as [|ev evs IH]; simpl; auto.
  destruct ev; simpl; try discriminate.
  intros H. rewrite Hf. auto.
Qed.

(** *** Sessions follow one another *)

Lemma session_inv_init : session_inv init.
Proof. split; reflexivity. Qed.

Lemma session_inv_step (w : World) (st : State) :
  session_inv st -> session_inv (step w st).
Proof.
  intros [Hm Hl]. unfold step.
  destruct (control st) as [| |ws|ws cmd|ws cmd|ws|ws e|ws k|e] eqn:Hc;
    simpl in Hm, Hl.
  - (* start-up *)
    destruct (startup_run w st) as (r & d & k & evs & E & Hp).
    rewrite E.
    assert (Hm' : monitor session_step (None, 0) (trace st ++ evs)
                  = Some (None, opened st)).
    { rewrite monitor_app, Hm. apply monitor_prints; auto. }
    destruct r as [[]|e]; split; simpl; auto.
  - (* connect *)
    destruct (ws_connect w (clock st)) as [e|].
    + split; simpl; auto.
    + unfold open_session. split; simpl.
      * rewrite (monitor_snoc _ _ _ _ _ Hm). simpl.
        now rewrite Nat.leb_refl.
      * now rewrite Hl.
  - (* producer *)
    split; simpl; auto.
  - (* send *)
    destruct (ws_send w (clock st) ws cmd) as [e|]; split; simpl; auto.
    rewrite (monitor_snoc _ _ _ _ _ Hm). simpl. now rewrite Nat.eqb_refl.
  - (* recv *)
    destruct (ws_recv w (clock st) ws) as [rec|e]; split; simpl; auto.
    rewrite (monitor_snoc _ _ _ _ _ Hm). simpl. now rewrite Nat.eqb_refl.
  - (* print *)
    split; simpl; auto.
    now rewrite (monitor_snoc _ _ _ _ _ Hm).
  - (* except *)
    split; simpl; auto.
  - (* leaving the block *)
    assert (Hr : remove Nat.eq_dec ws (live st) = []).
    { rewrite Hl. simpl. destruct (Nat.eq_dec ws ws); congruence. }
    destruct k as [|e]; unfold close_session; split; simpl; auto;
      rewrite (monitor_snoc _ _ _ _ _ Hm); simpl; now rewrite Nat.eqb_refl.
  - (* ended *)
    unfold session_inv. rewrite Hc. simpl. auto.
Qed.

Lemma session_inv_task (w : World) (n : nat) : session_inv (task w n).
Proof.
  unfold task. apply steps_invariant.
  - apply session_inv_step.
  - apply session_inv_init.
Qed.

Lemma monitor_invariant {S : Type} (f : S -> Event -> option S) (P : S -> Prop) :
  (forall s ev s', P s -> f s ev = Some s' -> P s') ->
  forall tr s s', P s -> monitor f s tr = Some s' -> P s'.
Proof.
  intros Hf tr. induction tr as [|ev tr IH]; simpl; intros s s' Hs H.
  - congruence.
  - destruct (f s ev) as [s1|] eqn:E; [|discriminate]. eauto.
Qed.

Lemma session_below_bound (tr : list Event) (ws used : nat) :
  monitor session_step (None, 0) tr = Some (Some ws, used) -> ws < used.
Proof.
  intros H.
  set (P := fun s : option nat * nat => forall c, fst s = Some c -> c < snd s).
  assert (Hf : forall s ev s', P s -> session_step s ev = Some s' -> P s').
  { intros [cur u] ev s' Hs. unfold session_step; simpl.
    destruct ev as [args|secs|cmd|x|x msg|x msg|x]; destruct cur as [c|];
      simpl; try discriminate;
      try (intros E; inversion E; subst; exact Hs).
    - destruct (Nat.leb u x); intros E; inversion E; subst.
      intros c' Ec. simpl in *. inversion Ec; subst. lia.
    - destruct (Nat.eqb c x); intros E; inversion E; subst; exact Hs.
    - destruct (Nat.eqb c x); intros E; inversion E; subst; exact Hs.
    - destruct (Nat.eqb c x); intros E; inversion E; subst.
      intros c' Ec. discriminate Ec. }
  assert (H0 : P (None, 0)) by (intros c Ec; discriminate Ec).
  exact (monitor_invariant session_step P Hf tr _ _ H0 H ws eq_refl).
Qed.

(** The monitor on three traces: two sessions one after the other; a
    second session opened while the first is open; a session number used
    again. *)
Example sessions_sequential_yes :
  sessions_sequential
    [EvConnect 0; EvSend 0 "p"; EvClose 0; EvConnect 1; EvClose 1] = true.
Proof. reflexivity. Qed.

Example sessions_sequential_overlap :
  sessions_sequential [EvConnect 0; EvConnect 1; EvClose 0] = false.
Proof. reflexivity. Qed.

Example sessions_sequential_reuse :
  sessions_sequential [EvConnect 0; EvClose 0; EvConnect 0] = false.
Proof. reflexivity. Qed.

(** *** Commands and responses alternate *)

Example framed_yes :
  framed [EvConnect 0; EvSleep 3; EvYield "p"; EvSend 0 "p"; EvRecv 0 "r1";
          EvPrint [PyStr "Received"]; EvSleep 3; EvYield "p"; EvSend 0 "p";
          EvClose 0; EvConnect 1; EvSleep 3; EvYield "p"; EvSend 1 "p";
          EvRecv 1 "r2"] = true.
Proof. reflexivity. Qed.

Example framed_two_sends :
  framed [EvConnect 0; EvYield "p"; EvSend 0 "p"; EvYield "p"; EvSend 0 "p"]
  = false.
Proof. reflexivity. Qed.

Example framed_two_receives :
  framed [EvConnect 0; EvYield "p"; EvSend 0 "p"; EvRecv 0 "a"; EvRecv 0 "b"]
  = false.
Proof. reflexivity. Qed.

Example framed_other_command :
  framed [EvConnect 0; EvYield "p"; EvSend 0 "q"] = false.
Proof. reflexivity. Qed.

Example framed_across_sessions :
  framed [EvConnect 0; EvYield "p"; EvSend 0 "p"; EvClose 0; EvConnect 1;
          EvRecv 1 "r"] = false.
Proof. reflexivity. Qed.

Lemma framing_inv_init : framing_inv init.
Proof. exists NoSession. split; reflexivity. Qed.

Lemma close_in_session (p : Phase) (ws : nat) :
  phase_session p = Some ws -> exchange_step p (EvClose ws) = Some NoSession.
Proof.
  destruct p; simpl; intros H; inversion H; subst; now rewrite Nat.eqb_refl.
Qed.

Lemma framing_inv_step (w : World) (st : State) :
  framing_inv st -> framing_inv (step w st).
Proof.
  intros (p & Hm & Hp). unfold framing_inv, step.
  destruct (control st) as [| |ws|ws cmd|ws cmd|ws|ws e|ws k|e] eqn:Hc;
    simpl in Hp.
  - (* start-up *)
    destruct (startup_run w st) as (r & d & k & evs & E & Hq).
    rewrite E. subst p.
    assert (Hm' : monitor exchange_step NoSession (trace st ++ evs)
                  = Some NoSession).
    { rewrite monitor_app, Hm. apply monitor_prints; auto. }
    destruct r as [[]|e]; exists NoSession; simpl; auto.
  - (* connect *)
    subst p. destruct (ws_connect w (clock st)) as [e|].
    + exists NoSession. simpl; auto.
    + exists (Idle (opened st)). unfold open_session; simpl.
      now rewrite (monitor_snoc _ _ _ _ _ Hm).
  - (* producer *)
    subst p. exists (Idle ws). simpl; auto.
  - (* send *)
    subst p. destruct (ws_send w (clock st) ws cmd) as [e|].
    + exists (Yielded ws cmd). simpl; auto.
    + exists (Awaiting ws cmd). simpl.
      rewrite (monitor_snoc _ _ _ _ _ Hm). simpl.
      now rewrite Nat.eqb_refl, String.eqb_refl.
  - (* recv *)
    subst p. destruct (ws_recv w (clock st) ws) as [rec|e].
    + exists (Idle ws). simpl.
      rewrite (monitor_snoc _ _ _ _ _ Hm). simpl. now rewrite Nat.eqb_refl.
    + exists (Awaiting ws cmd). simpl; auto.
  - (* print *)
    subst p. exists (Idle ws). simpl.
    now rewrite (monitor_snoc _ _ _ _ _ Hm).
  - (* except *)
    exists p. simpl; auto.
  - (* leaving the block *)
    exists NoSession.
    destruct k as [|e]; unfold close_session; simpl;
      rewrite (monitor_snoc _ _ _ _ _ Hm); now rewrite close_in_session.
  - (* ended *)
    exists p. rewrite Hc. auto.
Qed.

Lemma framing_inv_task (w : World) (n : nat) : framing_inv (task w n).
Proof.
  unfold task. apply steps_invariant.
  - apply framing_inv_step.
  - apply framing_inv_init.
Qed.

(** ** The local [contracts] after start-up *)

Lemma step_after_startup (w : World) (st : State) :
  control st <> AtStartup ->
  contracts (step w st) = contracts st /\ control (step w st) <> AtStartup.
Proof.
  intros H. unfold step.
  destruct (control st) as [| |ws|ws cmd|ws cmd|ws|ws e|ws k|e] eqn:Hc.
  - congruence.
  - destruct (ws_connect w (clock st)); simpl; split; auto; discriminate.
  - simpl; split; auto; discriminate.
  - destruct (ws_send w (clock st) ws cmd); simpl; split; auto; discriminate.
  - destruct (ws_recv w (clock st) ws); simpl; split; auto; discriminate.
  - simpl; split; auto; discriminate.
  - simpl; split; auto; discriminate.
  - destruct k; simpl; split; auto; discriminate.
  - split; auto. rewrite Hc. discriminate.
Qed.

(** ** Runs that differ in the payloads received only *)

Lemma sent_erase (tr : list Event) : sent (map erase tr) = sent tr.
Proof.
  induction tr as [|ev tr IH]; simpl; auto.
  rewrite IH. destruct ev; reflexivity.
Qed.

Lemma similar_sent (st1 st2 : State) :
  similar st1 st2 -> sent (trace st1) = sent (trace st2).
Proof.
  intros (_ & _ & _ & _ & _ & H).
  rewrite <- (sent_erase (trace st1)), <- (sent_erase (trace st2)).
  now rewrite H.
Qed.

Lemma similar_refl (st : State) : similar st st.
Proof. repeat split. Qed.

Lemma similar_step (w1 w2 : World) (st1 st2 : State) :
  same_but_payloads w1 w2 ->
  similar st1 st2 -> similar (step w1 st1) (step w2 st2).
Proof.
  intros (HL & HC & HS & HR) (Hc & Hd & Hl & Ho & Hk & Ht).
  unfold step. rewrite <- Hc.
  destruct (control st1) as [| |ws|ws cmd|ws cmd|ws|ws e|ws k|e] eqn:Hc1.
  - (* start-up *)
    assert (Hal : aligned w1 w2 st1 st2).
    { intros t. rewrite Hk. apply HL. }
    destruct (startup_coupled w1 w2 st1 st2 Hal)
      as (r & od & k & evs & E1 & E2 & _ & _).
    rewrite E1, E2.
    assert (Hd' : match od with Some d => d | None => contracts st1 end
                  = match od with Some d => d | None => contracts st2 end).
    { destruct od; auto. }
    destruct r as [[]|e]; unfold similar; simpl;
      rewrite !map_app, Ht, Hd', Hl, Ho, Hk; repeat split.
  - (* connect *)
    rewrite Hk, HC.
    destruct (ws_connect w2 (clock st2)) as [e|]; unfold similar; simpl;
      rewrite ?map_app, Ht, Hd, Hl, Ho, Hk; repeat split.
  - (* producer *)
    unfold similar; simpl. repeat split; auto.
  - (* send *)
    rewrite Hk, HS.
    destruct (ws_send w2 (clock st2) ws cmd) as [e|]; unfold similar; simpl;
      rewrite ?map_app, Ht, Hd, Hl, Ho, Hk; repeat split.
  - (* recv *)
    rewrite Hk. specialize (HR (clock st2) ws).
    destruct (ws_recv w1 (clock st2) ws) as [r1|e1],
             (ws_recv w2 (clock st2) ws) as [r2|e2];
      try contradiction; subst; unfold similar; simpl;
      rewrite ?map_app, Ht, Hd, Hl, Ho, Hk; repeat split.
  - (* print *)
    unfold similar; simpl. rewrite !map_app, Ht, Hd, Hl, Ho, Hk. repeat split.
  - (* except *)
    unfold similar; simpl. repeat split; auto.
  - (* leaving the block *)
    destruct k as [|e]; unfold similar; simpl;
      rewrite !map_app, Ht, Hd, Hl, Ho, Hk; repeat split.
  - (* ended *)
    unfold similar. repeat split; auto. congruence.
Qed.

Lemma similar_steps (w1 w2 : World) (n : nat) :
  same_but_payloads w1 w2 ->
  forall st1 st2, similar st1 st2 -> similar (steps w1 n st1) (steps w2 n st2).
Proof.
  intros Hw. induction n as [|n IH]; simpl; intros st1 st2 H; auto.
  apply IH. now apply similar_step.
Qed.

(** ** The handler of lines 37-38, one transition at a time *)

Lemma step_send_raises (w : World) (st : State) (ws : nat) (cmd : string)
  (e : Exn) :
  control st = AtSend ws cmd -> ws_send w (clock st) ws cmd = Some e ->
  step w st = goto (AtExcept ws e) (snd (tick st)).
Proof. intros Hc He. unfold step. now rewrite Hc, He. Qed.

Lemma step_recv_raises (w : World) (st : State) (ws : nat) (cmd : string)
  (e : Exn) :
  control st = AtRecv ws cmd -> ws_recv w (clock st) ws = Raise e ->
  step w st = goto (AtExcept ws e) (snd (tick st)).
Proof. intros Hc He. unfold step. now rewrite Hc, He. Qed.

Lemma step_send_ok (w : World) (st : State) (ws : nat) (cmd : string) :
  control st = AtSend ws cmd -> ws_send w (clock st) ws cmd = None ->
  step w st
    = mkState (AtRecv ws cmd) (contracts st) (live st) (opened st)
              (S (clock st)) (trace st ++ [EvSend ws cmd]).
Proof. intros Hc He. unfold step. now rewrite Hc, He. Qed.

Lemma step_recv_ok (w : World) (st : State) (ws : nat) (cmd rec : string) :
  control st = AtRecv ws cmd -> ws_recv w (clock st) ws = Ok rec ->
  step w st
    = mkState (AtPrint ws) (contracts st) (live st) (opened st)
              (S (clock st)) (trace st ++ [EvRecv ws rec]).
Proof. intros Hc He. unfold step. now rewrite Hc, He. Qed.

Lemma step_print (w : World) (st : State) (ws : nat) :
  control st = AtPrint ws ->
  step w st
    = mkState (AtProducer ws) (contracts st) (live st) (opened st)
              (clock st) (trace st ++ [EvPrint [PyStr "Received"]]).
Proof. intros Hc. unfold step. now rewrite Hc. Qed.

Lemma step_except (w : World) (st : State) (ws : nat) (e : Exn) :
  control st = AtExcept ws e ->
  step w st = goto (AtExit ws (except_clause e)) st.
Proof. intros Hc. unfold step. now rewrite Hc. Qed.

Lemma step_exit (w : World) (st : State) (ws : nat) (k : Leave) :
  control st = AtExit ws k ->
  step w st =
    close_session ws
      match k with Continue => AtConnect | Propagate e => Raised e end st.
Proof. intros Hc. unfold step. rewrite Hc. now destruct k. Qed.

(** From an exception [e] raised in the [try] block to the end of the
    [async with] block. *)
Lemma handler_run (w : World) (st : State) (ws : nat) (e : Exn) :
  control st = AtExcept ws e ->
  steps w 2 st =
    close_session ws
      (if isinstance_ConnectionClosed e then AtConnect else Raised e) st.
Proof.
  intros Hc. change (steps w 2 st) with (step w (step w st)).
  rewrite (step_except w st ws e Hc).
  rewrite (step_exit w (goto (AtExit ws (except_clause e)) st) ws
             (except_clause e) eq_refl).
  unfold except_clause. now destruct (isinstance_ConnectionClosed e).
Qed.

(** ** How every run of [task] goes *)

(** Line 31 passes no argument to [producer]: the call raises before the
    body of [producer] starts, whatever the server does. *)
Lemma step_at_producer (w : World) (st : State) (ws : nat) :
  control st = AtProducer ws ->
  step w st = goto (AtExcept ws missing_argument) st.
Proof. intros H. unfold step. rewrite H. reflexivity. Qed.

Lemma sent_prints (evs : list Event) :
  forallb is_print evs = true -> sent evs = [].
Proof.
  induction evs as [|ev evs IH]; simpl; auto.
  destruct ev; simpl; try discriminate. exact IH.
Qed.

Lemma sent_app (tr tr' : list Event) : sent (tr ++ tr') = sent tr ++ sent tr'.
Proof. unfold sent. apply flat_map_app. Qed.

Lemma steps_goto_raised (w : World) (n : nat) (st : State) (e : Exn) :
  steps w n (goto (Raised e) st) = goto (Raised e) st.
Proof. now apply steps_raised with (e := e). Qed.

Lemma steps_close_raised (w : World) (n ws : nat) (st : State) (e : Exn) :
  steps w n (close_session ws (Raised e) st) = close_session ws (Raised e) st.
Proof. now apply steps_raised with (e := e). Qed.

(** X1: every run ends within five transitions: with the exception of a
    start-up read, with the exception of the one connection attempt, or,
    when the server accepted, with the [TypeError] of line 31.  Nothing is
    ever sent and at most one session is ever opened. *)
Lemma task_ends (w : World) :
  exists e,
    outcome (task w 5) = Some e /\
    sent (trace (task w 5)) = [] /\
    opened (task w 5) <= 1 /\
    (opened (task w 5) = 1 -> e = missing_argument) /\
    forall n, task w (5 + n) = task w 5.
Proof.
  unfold task.
  destruct (startup_run w init) as (r & d & k & evs & E & Hp).
  assert (Hs : sent (trace init ++ evs) = []).
  { simpl. now apply sent_prints. }
  destruct r as [[]|e].
  - destruct (ws_connect w (clock (upd init d k evs))) as [e|] eqn:Ec.
    + exists e.
      assert (E2 : forall n, steps w (2 + n) init
                   = goto (Raised e) (snd (tick (upd init d k evs)))).
      { intros n. rewrite steps_add. simpl steps at 2.
        unfold step at 2. simpl. rewrite E.
        unfold step. simpl. simpl in Ec. rewrite Ec.
        now rewrite steps_goto_raised. }
      assert (Hn : forall n, steps w (5 + n) init = steps w 5 init).
      { intros n. change (5 + n) with (2 + (3 + n)). change 5 with (2 + 3).
        now rewrite !E2. }
      pose proof (E2 3) as E5. change (2 + 3) with 5 in E5.
      repeat split; try exact Hn; rewrite E5; simpl; auto; lia.
    + exists missing_argument.
      assert (E5 : forall n, steps w (5 + n) init
                   = close_session 0 (Raised missing_argument)
                       (open_session (upd init d k evs))).
      { intros n. rewrite steps_add. simpl steps at 2.
        unfold step at 5. simpl. rewrite E.
        unfold step at 4. simpl. simpl in Ec. rewrite Ec.
        etransitivity;
          [apply (steps_raised w n _ missing_argument) |]; reflexivity. }
      assert (Hn : forall n, steps w (5 + n) init = steps w 5 init).
      { intros n. rewrite E5. change 5 with (5 + 0). now rewrite E5. }
      pose proof (E5 0) as E0. change (5 + 0) with 5 in E0.
      repeat split; try exact Hn; rewrite E0; simpl; auto.
      rewrite <- !app_assoc. rewrite sent_app. simpl in Hs.
      rewrite Hs. reflexivity.
  - exists e.
    assert (E1 : forall n, steps w (1 + n) init
                 = goto (Raised e) (upd init d k evs)).
    { intros n. rewrite steps_add. simpl steps at 2. unfold step. simpl.
      rewrite E. now rewrite steps_goto_raised. }
    assert (Hn : forall n, steps w (5 + n) init = steps w 5 init).
    { intros n. change (5 + n) with (1 + (4 + n)). change 5 with (1 + 4).
      now rewrite !E1. }
    pose proof (E1 4) as E5. change (1 + 4) with 5 in E5.
    repeat split; try exact Hn; rewrite E5; simpl; auto; lia.
Qed.

(** ** Dicts *)

Lemma update_keys {V : Type} (k : string) (f : V -> V) (d : Dict V) :
  map fst (update k f d) = map fst d.
Proof.
  induction d as [|[k' v] d IH]; simpl; auto.
  destruct (String.eqb k k'); simpl; congruence.
Qed.

Lemma update_at {V : Type} (k : string) (f : V -> V) (pre : Dict V) (v : V)
  (rest : Dict V) :
  ~ In k (map fst pre) ->
  update k f (pre ++ (k, v) :: rest) = pre ++ (k, f v) :: rest.
Proof.
  induction pre as [|[k' v'] pre IH]; simpl; intros H.
  - now rewrite String.eqb_refl.
  - destruct (String.eqb_spec k k') as [E|E].
    + exfalso. apply H. left. now symmetry.
    + rewrite IH; auto.
Qed.

Lemma getitem_missing {V : Type} (k : string) (d : Dict V) :
  ~ In k (map fst d) -> getitem k d = Raise (KeyError k).
Proof.
  induction d as [|[k' v] d IH]; simpl; intros H; auto.
  destruct (String.eqb_spec k k') as [E|E].
  - exfalso. apply H. left. now symmetry.
  - apply IH. tauto.
Qed.

Lemma getitem_same_keys {V : Type} (k : string) (d d' : Dict V) (e : Exn) :
  map fst d = map fst d' -> getitem k d = Raise e -> getitem k d' = Raise e.
Proof.
  revert d'. induction d as [|[k1 v1] d IH]; intros [|[k2 v2] d'] H;
    simpl in *; try discriminate; auto.
  inversion H; subst.
  destruct (String.eqb k k2); [discriminate | eauto].
Qed.

(** ** Start-up, read by read *)

Lemma print_fee_unfold (w : World) (st : State) :
  print_fee w st =
  match getitem "ContractManager" (contracts st) with
  | Raise e => (Raise e, st)
  | Ok cm =>
      match obj cm with
      | None => (Raise (KeyError "obj"), st)
      | Some o =>
          match activationFee_call (ledger w (clock st)) o with
          | Ok fee =>
              (Ok tt, upd st (contracts st) 1
                          [EvPrint [PyStr "Fee:"; PyInt fee]])
          | Raise e => (Raise e, upd st (contracts st) 1 [])
          end
      end
  end.
Proof.
  unfold print_fee, bind, get_contracts, lift, getitem_obj.
  destruct (getitem "ContractManager" (contracts st)) as [cm|e]; auto.
  destruct (obj cm) as [o|]; auto.
  rewrite call_activationFee_upd.
  destruct (activationFee_call (ledger w (clock st)) o) as [fee|e]; auto.
  now rewrite emit_upd, upd_upd.
Qed.

Lemma startup_unfold (w : World) (st : State) :
  startup w st =
  match eth_chain_id (ledger w (clock st)) with
  | Raise e => (Raise e, upd st (contracts st) 1 [])
  | Ok chain =>
      match eth_chain_id (ledger w (S (clock st))) with
      | Raise e =>
          (Raise e, upd st (contracts st) 2
                        [EvPrint [PyStr "Chain id"; PyInt chain]])
      | Ok chain' =>
          match load_contracts (ledger w (S (S (clock st)))) chain' with
          | Raise e =>
              (Raise e, upd st (contracts st) 3
                            [EvPrint [PyStr "Chain id"; PyInt chain]])
          | Ok d =>
              match bind_contracts w d
                      (upd st d 3 [EvPrint [PyStr "Chain id"; PyInt chain]])
              with
              | (Ok _, st') => print_fee w st'
              | (Raise e, st') => (Raise e, st')
              end
          end
      end
  end.
Proof.
  unfold startup, bind. rewrite w3_eth_chain_id_upd.
  destruct (eth_chain_id (ledger w (clock st))) as [chain|e]; auto.
  rewrite emit_upd, w3_eth_chain_id_upd, !upd_upd.
  cbn [contracts clock upd Nat.add app].
  destruct (eth_chain_id (ledger w (S (clock st)))) as [chain'|e];
    reflexivity.
Qed.

(** The loop of lines 22-23 keeps the keys of [contracts] and their order,
    adds no event, and makes one call per entry it gets through. *)
Lemma bind_contracts_shape (w : World) (items : Dict Entry) :
  forall st,
    exists r d k,
      bind_contracts w items st = (r, upd st d k []) /\
      map fst d = map fst (contracts st) /\
      (r = Ok tt -> k = List.length items).
Proof.
  induction items as [|[key c] rest IH]; intros st.
  - exists (Ok tt), (contracts st), 0. simpl. unfold ret.
    rewrite <- upd_id. auto.
  - simpl. unfold bind. rewrite w3_eth_contract_upd.
    destruct (eth_contract (ledger w (clock st)) (address c) (abi c))
      as [o|e].
    + unfold get_contracts. rewrite set_contracts_upd, upd_upd.
      cbn [contracts upd Nat.add app].
      destruct (IH (upd st (update key (set_obj o) (contracts st)) 1 []))
        as (r & d & k & E & Hk & Hn).
      exists r, d, (k + 1). rewrite E, upd_upd. simpl.
      repeat split; auto.
      * rewrite Hk. simpl. apply update_keys.
      * intros Hr. rewrite (Hn Hr). lia.
    + exists (Raise e), (contracts st), 1. repeat split; auto. discriminate.
Qed.

Lemma bind_contracts_ok (w : World) (items : Dict Entry) :
  forall pre st st',
    contracts st = pre ++ items ->
    NoDup (map fst (pre ++ items)) ->
    bind_contracts w items st = (Ok tt, st') ->
    exists items',
      contracts st' = pre ++ items' /\
      bound_from w (clock st) items items'.
Proof.
  induction items as [|[key c] rest IH]; intros pre st st' Hd Hnd H.
  - simpl in H. unfold ret in H. inversion H; subst st'.
    exists []. split; [exact Hd | exact I].
  - simpl in H. unfold bind in H. rewrite w3_eth_contract_upd in H.
    destruct (eth_contract (ledger w (clock st)) (address c) (abi c))
      as [o|e] eqn:Eo; [|discriminate].
    unfold get_contracts in H. rewrite set_contracts_upd, upd_upd in H.
    cbn [contracts upd] in H.
    assert (Hk : ~ In key (map fst pre)).
    { rewrite map_app in Hnd. simpl in Hnd.
      apply NoDup_remove_2 in Hnd. intros Hin. apply Hnd.
      apply in_or_app. now left. }
    rewrite Hd, (update_at key (set_obj o) pre c rest Hk) in H.
    apply IH with (pre := pre ++ [(key, set_obj o c)]) in H.
    + destruct H as (items' & E & Hb).
      exists ((key, set_obj o c) :: items'). split.
      * rewrite E, <- app_assoc. reflexivity.
      * simpl. repeat split; auto. exists o. auto.
    + simpl. now rewrite <- app_assoc.
    + rewrite <- app_assoc. simpl.
      rewrite map_app in *. simpl in *. exact Hnd.
Qed.

(** * The claims of the specification *)

(** ** C1: channel errors and the caller *)

(** C1 at a server that refuses the connection: the exception of
    [websockets.connect] is raised on entering the [async with] block,
    outside the [try] of line 29; it is not absorbed, it ends [task] after
    one attempt, no session was opened and nothing is tried again. *)
Lemma refused_connection_reaches_caller :
  control (task Worlds.refusing 1) = AtConnect /\
  ws_connect Worlds.refusing (clock (task Worlds.refusing 1))
    = Some (OSError "ConnectionRefusedError") /\
  outcome (task Worlds.refusing 2) = Some (OSError "ConnectionRefusedError") /\
  opened (task Worlds.refusing 2) = 0 /\
  forall n, task Worlds.refusing (2 + n) = task Worlds.refusing 2.
Proof.
  repeat split.
  intros n. unfold task. rewrite steps_add.
  now apply steps_raised with (e := OSError "ConnectionRefusedError").
Qed.

(** ** C2: the call of [producer] in the exchange loop *)

(** C2 at a server that accepts the connection and would answer every
    message: control reaches line 31, the call [producer()] raises
    [TypeError] there, no command comes back, [task] ends with that
    [TypeError] and nothing was sent. *)
Theorem loop_call_of_producer_raises :
  control (task (Worlds.accepting "plan") 2) = AtProducer 0 /\
  fst (call_producer [] (task (Worlds.accepting "plan") 2))
    = Raise missing_argument /\
  control (task (Worlds.accepting "plan") 3) = AtExcept 0 missing_argument /\
  outcome (task (Worlds.accepting "plan") 5) = Some missing_argument /\
  sent (trace (task (Worlds.accepting "plan") 5)) = [].
Proof. repeat split. Qed.

(** ** C3: a send or a receive that meets a closed connection *)

(** C3: when the send of line 33 or the receive of line 34 raises a
    [ConnectionClosed] (clean or not) on the session [ws], three
    transitions later control is back at the connect step and [task] has
    not ended; the session was closed; nothing was sent in between, so the
    command in flight was not sent again, and the connect step holds no
    command; one external call was made, the one that raised.  The next
    transition is the connection attempt: when the server accepts, a new
    session is open, under a number never used before, and control is at
    line 31, where a fresh command is asked of [producer]. *)
Theorem closed_connection_is_dropped_and_redialled (w : World) (st : State)
  (ws : nat) (e : Exn) :
  exchange_raises w st ws e ->
  isinstance_ConnectionClosed e = true ->
  control (steps w 3 st) = AtConnect /\
  outcome (steps w 3 st) = None /\
  live (steps w 3 st) = remove Nat.eq_dec ws (live st) /\
  trace (steps w 3 st) = trace st ++ [EvClose ws] /\
  sent (trace (steps w 3 st)) = sent (trace st) /\
  clock (steps w 3 st) = S (clock st) /\
  opened (steps w 3 st) = opened st /\
  (ws_connect w (S (clock st)) = None ->
   control (steps w 4 st) = AtProducer (opened st) /\
   live (steps w 4 st) = opened st :: remove Nat.eq_dec ws (live st) /\
   trace (steps w 4 st) = trace st ++ [EvClose ws; EvConnect (opened st)]).
Proof.
  intros Hx He.
  assert (E1 : step w st = goto (AtExcept ws e) (snd (tick st))).
  { destruct Hx as [(cmd & Hc & Hs)|(cmd & Hc & Hr)].
    - now apply step_send_raises with (cmd := cmd).
    - now apply step_recv_raises with (cmd := cmd). }
  assert (E3 : steps w 3 st
               = close_session ws AtConnect
                   (goto (AtExcept ws e) (snd (tick st)))).
  { change (steps w 3 st) with (steps w 2 (step w st)). rewrite E1.
    rewrite (handler_run w (goto (AtExcept ws e) (snd (tick st))) ws e
               eq_refl).
    now rewrite He. }
  assert (E4 : steps w 4 st = step w (steps w 3 st)).
  { now rewrite (steps_succ w 3 st). }
  rewrite E4, E3. simpl.
  do 4 (split; [reflexivity |]).
  split; [rewrite sent_app; simpl; now rewrite app_nil_r |].
  do 2 (split; [reflexivity |]).
  intros Hc. unfold step. simpl. rewrite Hc. simpl.
  rewrite <- app_assoc. repeat split.
Qed.

Lemma closed_connection_is_dropped_and_redialled_witness :
  exchange_raises Worlds.closing_after_first_reply awaiting_second_reply 0
    ConnectionClosedOK /\
  isinstance_ConnectionClosed ConnectionClosedOK = true /\
  control (steps Worlds.closing_after_first_reply 3 awaiting_second_reply)
    = AtConnect /\
  outcome (steps Worlds.closing_after_first_reply 3 awaiting_second_reply)
    = None /\
  live (steps Worlds.closing_after_first_reply 3 awaiting_second_reply)
    = remove Nat.eq_dec 0 (live awaiting_second_reply) /\
  trace (steps Worlds.closing_after_first_reply 3 awaiting_second_reply)
    = trace awaiting_second_reply ++ [EvClose 0] /\
  sent (trace (steps Worlds.closing_after_first_reply 3 awaiting_second_reply))
    = sent (trace awaiting_second_reply) /\
  clock (steps Worlds.closing_after_first_reply 3 awaiting_second_reply)
    = S (clock awaiting_second_reply) /\
  opened (steps Worlds.closing_after_first_reply 3 awaiting_second_reply)
    = opened awaiting_second_reply /\
  (ws_connect Worlds.closing_after_first_reply (S (clock awaiting_second_reply))
     = None ->
   control (steps Worlds.closing_after_first_reply 4 awaiting_second_reply)
     = AtProducer (opened awaiting_second_reply) /\
   live (steps Worlds.closing_after_first_reply 4 awaiting_second_reply)
     = opened awaiting_second_reply
       :: remove Nat.eq_dec 0 (live awaiting_second_reply) /\
   trace (steps Worlds.closing_after_first_reply 4 awaiting_second_reply)
     = trace awaiting_second_reply
       ++ [EvClose 0; EvConnect (opened awaiting_second_reply)]).
Proof.
  assert (Hx : exchange_raises Worlds.closing_after_first_reply
                 awaiting_second_reply 0 ConnectionClosedOK).
  { right. exists "p". split; reflexivity. }
  split; [exact Hx |].
  split; [reflexivity |].
  exact (closed_connection_is_dropped_and_redialled
           Worlds.closing_after_first_reply awaiting_second_reply 0
           ConnectionClosedOK Hx eq_refl).
Defined.

(** ** C4: one session at a time *)

(** C4: in every state [task] reaches, at most one session is open; none
    is open when control is at the connect step; an open session is the one
    control is inside of and was numbered when it was opened; and along the
    trace a session is opened only when none is open, under a number never
    used before. *)
Theorem at_most_one_live_session (w : World) (n : nat) :
  List.length (live (task w n)) <= 1 /\
  (control (task w n) = AtConnect -> live (task w n) = []) /\
  (forall ws, In ws (live (task w n)) ->
     session_of (control (task w n)) = Some ws /\ ws < opened (task w n)) /\
  sessions_sequential (trace (task w n)) = true.
Proof.
  destruct (session_inv_task w n) as [Hm Hl].
  split; [|split; [|split]].
  - rewrite Hl. destruct (session_of (control (task w n))); simpl; lia.
  - intros Hc. rewrite Hl, Hc. reflexivity.
  - intros ws Hin. rewrite Hl in Hin.
    destruct (session_of (control (task w n))) as [c|] eqn:E; simpl in Hin;
      [destruct Hin as [Hin|[]]; subst | contradiction].
    split; [reflexivity |].
    now apply session_below_bound with (tr := trace (task w n)).
  - unfold sessions_sequential, accepts. now rewrite Hm.
Qed.

(** ** C5: framing of the exchange *)

(** On the trace of every run of [task] from [init], the exchange is
    framed. *)
Lemma exchanges_are_framed (w : World) (n : nat) :
  framed (trace (task w n)) = true.
Proof.
  destruct (framing_inv_task w n) as (p & Hm & _).
  unfold framed, accepts. now rewrite Hm.
Qed.

(** C5: from any state of the loops whose trace is framed so far and
    agrees with the program point (the start of [task], a state between
    two exchanges, a state with a command produced or sent), any number of
    transitions keeps the trace framed: a command the producer yielded is
    the next thing sent, on the open session; a send is followed by
    exactly one receive on the same session before the next command is
    produced or sent; no receive is on another session than the send
    before it; and the state reached is again such a state.  And the
    exchange does take place in that order: from the send of line 33,
    when the server takes the command and answers, the next three
    transitions send the command, receive one response on the same
    session, print, and are back at line 31. *)
Theorem exchanges_stay_framed (w : World) (st : State) (n : nat) :
  framing_inv st ->
  framed (trace (steps w n st)) = true /\
  framing_inv (steps w n st) /\
  (forall ws cmd rec,
     control st = AtSend ws cmd ->
     ws_send w (clock st) ws cmd = None ->
     ws_recv w (S (clock st)) ws = Ok rec ->
     trace (steps w 3 st)
       = trace st ++ [EvSend ws cmd; EvRecv ws rec; EvPrint [PyStr "Received"]] /\
     control (steps w 3 st) = AtProducer ws).
Proof.
  intros H.
  assert (Hn : framing_inv (steps w n st)).
  { apply steps_invariant; [apply framing_inv_step | exact H]. }
  split; [|split; [exact Hn |]].
  - destruct Hn as (p & Hm & _). unfold framed, accepts. now rewrite Hm.
  - intros ws cmd rec Hc Hs Hr.
    change (steps w 3 st) with (step w (step w (step w st))).
    rewrite (step_send_ok w st ws cmd Hc Hs).
    rewrite (step_recv_ok w
               (mkState (AtRecv ws cmd) (contracts st) (live st) (opened st)
                        (S (clock st)) (trace st ++ [EvSend ws cmd]))
               ws cmd rec eq_refl Hr).
    cbn [control contracts live opened clock trace].
    rewrite (step_print w
               (mkState (AtPrint ws) (contracts st) (live st) (opened st)
                        (S (S (clock st)))
                        ((trace st ++ [EvSend ws cmd]) ++ [EvRecv ws rec]))
               ws eq_refl).
    simpl. rewrite <- !app_assoc. split; reflexivity.
Qed.

Lemma framing_inv_about_to_send : framing_inv about_to_send.
Proof. exists (Yielded 0 "p"). split; reflexivity. Qed.

Lemma exchanges_stay_framed_witness :
  framing_inv about_to_send /\
  framed (trace (steps (Worlds.accepting "plan") 3 about_to_send)) = true /\
  framing_inv (steps (Worlds.accepting "plan") 3 about_to_send) /\
  (forall ws cmd rec,
     control about_to_send = AtSend ws cmd ->
     ws_send (Worlds.accepting "plan") (clock about_to_send) ws cmd = None ->
     ws_recv (Worlds.accepting "plan") (S (clock about_to_send)) ws = Ok rec ->
     trace (steps (Worlds.accepting "plan") 3 about_to_send)
       = trace about_to_send
         ++ [EvSend ws cmd; EvRecv ws rec; EvPrint [PyStr "Received"]] /\
     control (steps (Worlds.accepting "plan") 3 about_to_send) = AtProducer ws).
Proof.
  split; [exact framing_inv_about_to_send |].
  exact (exchanges_stay_framed (Worlds.accepting "plan") about_to_send 3
           framing_inv_about_to_send).
Defined.

(** From [about_to_send], three transitions do send and receive. *)
Example about_to_send_exchanges :
  trace (steps (Worlds.accepting "plan") 3 about_to_send)
    = trace about_to_send
      ++ [EvSend 0 "p"; EvRecv 0 "plan"; EvPrint [PyStr "Received"]].
Proof. reflexivity. Qed.

(** ** C6: a failing start-up read *)

(** An exception of the loop of lines 22-23 was raised by
    [w3.eth.contract]. *)
Lemma bind_contracts_error (w : World) (items : Dict Entry) :
  forall st e,
    fst (bind_contracts w items st) = Raise e ->
    exists t a b, eth_contract (ledger w t) a b = Raise e.
Proof.
  induction items as [|[key c] rest IH]; simpl; intros st e H.
  - discriminate.
  - unfold bind in H. rewrite w3_eth_contract_upd in H.
    destruct (eth_contract (ledger w (clock st)) (address c) (abi c))
      as [o|e'] eqn:E.
    + unfold get_contracts in H. rewrite set_contracts_upd in H.
      eapply IH; eauto.
    + simpl in H. inversion H; subst. eauto.
Qed.

Lemma getitem_error {V : Type} (k : string) (d : Dict V) (e : Exn) :
  getitem k d = Raise e -> e = KeyError k.
Proof.
  induction d as [|[k' v] d IH]; simpl; intros H.
  - now inversion H.
  - destruct (String.eqb k k'); [discriminate | auto].
Qed.

Lemma unreachable_endpoint_fails_startup (w : World) (e : Exn) :
  eth_chain_id (ledger w 0) = Raise e -> fst (startup w init) = Raise e.
Proof.
  intros H. unfold startup, bind. rewrite w3_eth_chain_id_upd. simpl.
  now rewrite H.
Qed.

(** When start-up ends with [e], so does [main], at its first transition. *)
Lemma startup_failure_is_fatal (w : World) (e : Exn) :
  fst (startup w init) = Raise e ->
  (forall n, 1 <= n -> main w n = main w 1 /\ outcome (main w n) = Some e) /\
  (forall n, control (main w n) <> AtConnect /\
             session_of (control (main w n)) = None /\
             opened (main w n) = 0 /\
             forallb is_print (trace (main w n)) = true).
Proof.
  intros H.
  destruct (startup_run w init) as (r & d & k & evs & E & Hp).
  rewrite E in H. simpl in H. subst r.
  assert (E1 : forall n, main w (1 + n) = goto (Raised e) (upd init d k evs)).
  { intros n. unfold main, task. rewrite steps_add. simpl steps at 2.
    unfold step. simpl. rewrite E. apply steps_goto_raised. }
  split.
  - intros n Hn. pose proof (E1 0) as E0. change (1 + 0) with 1 in E0.
    rewrite E0. replace n with (1 + (n - 1)) by lia.
    rewrite E1. auto.
  - intros [|n].
    + repeat split. discriminate.
    + change (S n) with (1 + n). rewrite E1. simpl.
      repeat split; auto. discriminate.
Qed.

(** *** From a failing read to the end of start-up *)

Lemma binding_raises_bind (w : World) (items : Dict Entry) :
  forall st e,
    binding_raises w (clock st) items e ->
    fst (bind_contracts w items st) = Raise e.
Proof.
  induction items as [|[key c] rest IH]; intros st e H; simpl in H.
  - contradiction.
  - simpl. unfold bind. rewrite w3_eth_contract_upd.
    destruct H as [H|[[o Ho] H]].
    + now rewrite H.
    + rewrite Ho. unfold get_contracts. rewrite set_contracts_upd, upd_upd.
      apply IH. exact H.
Qed.

Lemma bind_raises_binding (w : World) (items : Dict Entry) :
  forall st e,
    fst (bind_contracts w items st) = Raise e ->
    binding_raises w (clock st) items e.
Proof.
  induction items as [|[key c] rest IH]; intros st e H; simpl in H.
  - discriminate.
  - unfold bind in H. rewrite w3_eth_contract_upd in H. simpl.
    destruct (eth_contract (ledger w (clock st)) (address c) (abi c))
      as [o|e'] eqn:E.
    + right. split; [now exists o |].
      unfold get_contracts in H. rewrite set_contracts_upd, upd_upd in H.
      apply IH in H. exact H.
    + left. simpl in H. congruence.
Qed.

Lemma bound_from_bind (w : World) (items : Dict Entry) :
  forall items' st,
    bound_from w (clock st) items items' ->
    exists d',
      bind_contracts w items st = (Ok tt, upd st d' (List.length items) []) /\
      map fst d' = map fst (contracts st).
Proof.
  induction items as [|[key c] rest IH]; intros [|[key' c'] rest'] st H;
    simpl in H; try contradiction.
  - exists (contracts st). simpl. unfold ret. rewrite <- upd_id. auto.
  - destruct H as (_ & _ & _ & (o & Ho & _) & Hrest).
    simpl. unfold bind. rewrite w3_eth_contract_upd, Ho.
    unfold get_contracts. rewrite set_contracts_upd, upd_upd.
    cbn [contracts upd Nat.add app].
    destruct (IH rest' (upd st (update key (set_obj o) (contracts st)) 1 []))
      as (d' & E & Hk); [exact Hrest |].
    exists d'. rewrite E, upd_upd. simpl. split.
    + f_equal. f_equal. lia.
    + rewrite Hk. apply update_keys.
Qed.

Lemma bound_from_unique (w : World) (items : Dict Entry) :
  forall t d1 d2,
    bound_from w t items d1 -> bound_from w t items d2 -> d1 = d2.
Proof.
  induction items as [|[key c] rest IH];
    intros t [|[k1 c1] r1] [|[k2 c2] r2] H1 H2;
    simpl in H1, H2; try contradiction; auto.
  destruct H1 as (K1 & A1 & B1 & (o1 & O1 & S1) & R1).
  destruct H2 as (K2 & A2 & B2 & (o2 & O2 & S2) & R2).
  rewrite (IH (S t) r1 r2 R1 R2).
  destruct c1, c2. simpl in *. subst. congruence.
Qed.

Lemma bound_from_keys (w : World) (items : Dict Entry) :
  forall t items', bound_from w t items items' -> map fst items' = map fst items.
Proof.
  induction items as [|[key c] rest IH]; intros t [|[key' c'] rest'] H;
    simpl in H; try contradiction; auto.
  destruct H as (K & _ & _ & _ & R). simpl. rewrite K. f_equal. eauto.
Qed.

Lemma bound_from_obj (w : World) (items : Dict Entry) (k : string) (cm : Entry) :
  forall t items',
    bound_from w t items items' -> getitem k items' = Ok cm -> obj cm <> None.
Proof.
  induction items as [|[key c] rest IH]; intros t [|[key' c'] rest'] H G;
    simpl in H, G; try contradiction; try discriminate.
  destruct H as (_ & _ & _ & (o & _ & S1) & R).
  destruct (String.eqb k key').
  - inversion G; subst. congruence.
  - eauto.
Qed.

Lemma getitem_raise_not_in {V : Type} (k : string) (d : Dict V) (e : Exn) :
  getitem k d = Raise e -> ~ In k (map fst d).
Proof.
  induction d as [|[k' v] d IH]; simpl; intros H; auto.
  destruct (String.eqb_spec k k') as [E|E]; [discriminate |].
  intros [Hin|Hin]; [congruence | now apply IH].
Qed.

Lemma bound_from_bind_exact (w : World) (d d' : Dict Entry) (st : State) :
  NoDup (map fst d) ->
  contracts st = d ->
  bound_from w (clock st) d d' ->
  bind_contracts w d st = (Ok tt, upd st d' (List.length d) []).
Proof.
  intros Hnd Hd Hb.
  destruct (bound_from_bind w d d' st Hb) as (d'' & E & _).
  destruct (bind_contracts_ok w d [] st _ Hd Hnd E) as (items' & Ec & Hb').
  simpl in Ec. subst d''.
  now rewrite (bound_from_unique w d _ _ _ Hb' Hb) in E.
Qed.

Lemma failed_read_fails_startup (w : World) (e : Exn) :
  startup_read_fails w e -> fst (startup w init) = Raise e.
Proof.
  intros H. rewrite startup_unfold. simpl clock.
  destruct H as [e H1 | chain e H1 H2 | chain chain' e H1 H2 H3
                | chain chain' d e H1 H2 H3 H4
                | chain chain' d d' H1 H2 H3 H4 H5
                | chain chain' d d' cm o e H1 H2 H3 Hnd H4 H5 H6 H7].
  - now rewrite H1.
  - now rewrite H1, H2.
  - now rewrite H1, H2, H3.
  - rewrite H1, H2, H3.
    pose proof (binding_raises_bind w d
                  (upd init d 3 [EvPrint [PyStr "Chain id"; PyInt chain]])
                  e H4) as Hb.
    destruct (bind_contracts w d
                (upd init d 3 [EvPrint [PyStr "Chain id"; PyInt chain]]))
      as [r st']. simpl in Hb. now subst r.
  - rewrite H1, H2, H3.
    destruct (bound_from_bind w d d'
                (upd init d 3 [EvPrint [PyStr "Chain id"; PyInt chain]]) H4)
      as (d'' & E & Hk).
    rewrite E, print_fee_unfold. cbn [contracts upd] in *.
    rewrite (getitem_missing "ContractManager" d''); [reflexivity |].
    now rewrite Hk.
  - rewrite H1, H2, H3.
    rewrite (bound_from_bind_exact w d d'
               (upd init d 3 [EvPrint [PyStr "Chain id"; PyInt chain]])
               Hnd eq_refl H4).
    rewrite print_fee_unfold. cbn [contracts clock upd init].
    rewrite H5, H6.
    replace (List.length d + (3 + 0)) with (3 + List.length d) by lia.
    now rewrite H7.
Qed.

(** C6: when one of the reads of start-up fails with [e] (the node does
    not answer the first or the second request for the chain id, the
    registry lookup raises, the binding of an entry raises, the registry
    names no ["ContractManager"], or the call of [activationFee] raises),
    [main] ends with [e] at its first transition and stays there: nothing
    is read again.  Control is never at the connect step nor inside a
    session, no session is ever opened, and the trace holds nothing but
    what start-up printed. *)
Theorem failed_startup_read_is_fatal (w : World) (e : Exn) :
  startup_read_fails w e ->
  (forall n, 1 <= n -> main w n = main w 1 /\ outcome (main w n) = Some e) /\
  (forall n, control (main w n) <> AtConnect /\
             session_of (control (main w n)) = None /\
             opened (main w n) = 0 /\
             forallb is_print (trace (main w n)) = true).
Proof.
  intros H. apply startup_failure_is_fatal.
  now apply failed_read_fails_startup.
Qed.

Lemma fee_reverts_read_fails :
  startup_read_fails fee_reverts (LedgerError "ContractLogicError").
Proof.
  apply (fee_fails fee_reverts 1337%Z 1337%Z Worlds.registry
           [ ("ContractManager",
              mkEntry "0xC0FFEE" "abi-manager"
                      (Some (mkContract "0xC0FFEE" "abi-manager")));
             ("FELToken",
              mkEntry "0xF00D" "abi-token"
                      (Some (mkContract "0xF00D" "abi-token"))) ]
           (mkEntry "0xC0FFEE" "abi-manager"
                    (Some (mkContract "0xC0FFEE" "abi-manager")))
           (mkContract "0xC0FFEE" "abi-manager"));
    try reflexivity.
  - simpl. repeat constructor; simpl; intuition discriminate.
  - simpl. repeat split; eexists; split; reflexivity.
Qed.

Lemma failed_startup_read_is_fatal_witness :
  startup_read_fails fee_reverts (LedgerError "ContractLogicError") /\
  (forall n, 1 <= n ->
     main fee_reverts n = main fee_reverts 1 /\
     outcome (main fee_reverts n) = Some (LedgerError "ContractLogicError")) /\
  (forall n, control (main fee_reverts n) <> AtConnect /\
             session_of (control (main fee_reverts n)) = None /\
             opened (main fee_reverts n) = 0 /\
             forallb is_print (trace (main fee_reverts n)) = true).
Proof.
  split; [exact fee_reverts_read_fails |].
  exact (failed_startup_read_is_fatal fee_reverts
           (LedgerError "ContractLogicError") fee_reverts_read_fails).
Defined.

(** The node that cannot be reached fails the first read. *)
Example unreachable_read_fails :
  startup_read_fails Worlds.ledger_unreachable (LedgerError "ConnectionError").
Proof. now apply chain_id_fails. Qed.

(** ** C7: what [producer] does *)

(** C7: called with any argument, from any state, [producer] sleeps three
    seconds and returns ["p"]; it touches nothing else, and two calls with
    different arguments do the same. *)
Theorem producer_constant (federated_contract : PyObj) (st : State) :
  producer federated_contract st
    = (Ok "p", upd st (contracts st) 0 [EvSleep 3]) /\
  call_producer [federated_contract] st = producer federated_contract st /\
  forall other : PyObj, producer other st = producer federated_contract st.
Proof. repeat split. Qed.

(** ** C8: the ledger configuration after start-up *)

(** C8: from any state past the start-up reads, no number of transitions
    of the connection and exchange loops changes the local [contracts]
    (the chain id and the fee are printed at start-up and kept nowhere). *)
Theorem ledger_config_frame (w : World) (st : State) (n : nat) :
  control st <> AtStartup ->
  contracts (steps w n st) = contracts st /\
  control (steps w n st) <> AtStartup.
Proof.
  revert st. induction n as [|n IH]; simpl; intros st H; auto.
  destruct (step_after_startup w st H) as [Hd Hc].
  destruct (IH (step w st) Hc) as [Hd' Hc'].
  split; congruence.
Qed.

Lemma ledger_config_frame_witness :
  control (task (Worlds.accepting "plan") 1) <> AtStartup /\
  contracts (steps (Worlds.accepting "plan") 4
               (task (Worlds.accepting "plan") 1))
    = contracts (task (Worlds.accepting "plan") 1) /\
  control (steps (Worlds.accepting "plan") 4
             (task (Worlds.accepting "plan") 1)) <> AtStartup.
Proof.
  assert (H : control (task (Worlds.accepting "plan") 1) <> AtStartup)
    by discriminate.
  split; [exact H |].
  exact (ledger_config_frame (Worlds.accepting "plan")
           (task (Worlds.accepting "plan") 1) 4 H).
Defined.

(** ** C9: reading the configuration twice *)

Lemma printed_since_upd (st : State) d k evs :
  printed_since st (upd st d k evs) = evs.
Proof.
  unfold printed_since, upd; simpl.
  rewrite skipn_app, skipn_all, Nat.sub_diag. reflexivity.
Qed.

(** C9: against a ledger that answers the same at every instant, the
    start-up reads run a second time, from the state the first run left,
    end the same way (the same success or the same exception), leave the
    same [contracts] and print the same chain id and fee. *)
Theorem startup_idempotent (w : World) (L : Ledger) (st : State) :
  (forall t, ledger w t = L) ->
  fst (startup w (snd (startup w st))) = fst (startup w st) /\
  contracts (snd (startup w (snd (startup w st))))
    = contracts (snd (startup w st)) /\
  printed_since (snd (startup w st)) (snd (startup w (snd (startup w st))))
    = printed_since st (snd (startup w st)).
Proof.
  intros HL.
  assert (Hal : aligned w w st (snd (startup w st))).
  { intros t. now rewrite !HL. }
  destruct (startup_coupled w w st (snd (startup w st)) Hal)
    as (r & od & k & evs & E1 & E2 & _ & _).
  rewrite E2. rewrite E1. simpl fst. simpl snd.
  rewrite !printed_since_upd.
  repeat split. destruct od; reflexivity.
Qed.

Lemma startup_idempotent_witness :
  (forall t, ledger (Worlds.accepting "plan") t = Worlds.node_up) /\
  fst (startup (Worlds.accepting "plan")
         (snd (startup (Worlds.accepting "plan") init)))
    = fst (startup (Worlds.accepting "plan") init) /\
  contracts (snd (startup (Worlds.accepting "plan")
                    (snd (startup (Worlds.accepting "plan") init))))
    = contracts (snd (startup (Worlds.accepting "plan") init)) /\
  printed_since (snd (startup (Worlds.accepting "plan") init))
    (snd (startup (Worlds.accepting "plan")
            (snd (startup (Worlds.accepting "plan") init))))
    = printed_since init (snd (startup (Worlds.accepting "plan") init)).
Proof.
  split; [intros t; reflexivity |].
  exact (startup_idempotent (Worlds.accepting "plan") Worlds.node_up init
           (fun t => eq_refl)).
Defined.

(** ** C10: what is received and what is sent *)

Lemma accepting_same_but_payloads (a b : string) :
  same_but_payloads (Worlds.accepting a) (Worlds.accepting b).
Proof. repeat split. Qed.

(** C10: two servers that differ in nothing but the payloads of their
    responses see the same commands, in the same order, on the same
    sessions, whatever state the two runs start from and however long they
    last; control is at the same program point in both. *)
Theorem responses_do_not_influence_sends (w1 w2 : World) (st : State)
  (n : nat) :
  same_but_payloads w1 w2 ->
  sent (trace (steps w1 n st)) = sent (trace (steps w2 n st)) /\
  control (steps w1 n st) = control (steps w2 n st).
Proof.
  intros Hw.
  pose proof (similar_steps w1 w2 n Hw st st (similar_refl st)) as Hs.
  split; [now apply similar_sent | apply Hs].
Qed.

Lemma responses_do_not_influence_sends_witness :
  same_but_payloads (Worlds.accepting "plan A") (Worlds.accepting "plan B") /\
  sent (trace (steps (Worlds.accepting "plan A") 4 about_to_send))
    = sent (trace (steps (Worlds.accepting "plan B") 4 about_to_send)) /\
  control (steps (Worlds.accepting "plan A") 4 about_to_send)
    = control (steps (Worlds.accepting "plan B") 4 about_to_send).
Proof.
  split; [apply accepting_same_but_payloads |].
  exact (responses_do_not_influence_sends
           (Worlds.accepting "plan A") (Worlds.accepting "plan B")
           about_to_send 4 (accepting_same_but_payloads "plan A" "plan B")).
Defined.

(** From [about_to_send], the two servers do deliver different payloads. *)
Example payloads_differ :
  trace (steps (Worlds.accepting "plan A") 2 about_to_send)
    = trace about_to_send ++ [EvSend 0 "p"; EvRecv 0 "plan A"] /\
  trace (steps (Worlds.accepting "plan B") 2 about_to_send)
    = trace about_to_send ++ [EvSend 0 "p"; EvRecv 0 "plan B"].
Proof. split; reflexivity. Qed.

(** * Further properties of the code *)

(** X7: a start-up that succeeds from [st] asked the node for the chain
    id twice, looked the registry up under the second answer, bound one
    contract per entry, called [activationFee] on the contract bound for
    ["ContractManager"], and did nothing else: that is four calls plus one
    per entry.  It printed two lines: the first answer for the chain id,
    then the fee.  The keys of [contracts] are those of the registry, in
    its order. *)
Theorem startup_reads_and_prints (w : World) (st : State) :
  fst (startup w st) = Ok tt ->
  exists chain chain' d cm o fee,
    eth_chain_id (ledger w (clock st)) = Ok chain /\
    eth_chain_id (ledger w (1 + clock st)) = Ok chain' /\
    load_contracts (ledger w (2 + clock st)) chain' = Ok d /\
    map fst (contracts (snd (startup w st))) = map fst d /\
    getitem "ContractManager" (contracts (snd (startup w st))) = Ok cm /\
    obj cm = Some o /\
    activationFee_call (ledger w (3 + List.length d + clock st)) o = Ok fee /\
    clock (snd (startup w st)) = 4 + List.length d + clock st /\
    trace (snd (startup w st))
      = trace st ++ [EvPrint [PyStr "Chain id"; PyInt chain];
                     EvPrint [PyStr "Fee:"; PyInt fee]].
Proof.
  rewrite startup_unfold. simpl Nat.add.
  destruct (eth_chain_id (ledger w (clock st))) as [chain|e] eqn:E1;
    [|discriminate].
  destruct (eth_chain_id (ledger w (S (clock st)))) as [chain'|e] eqn:E2;
    [|discriminate].
  destruct (load_contracts (ledger w (S (S (clock st)))) chain')
    as [d|e] eqn:E3; [|discriminate].
  destruct (bind_contracts_shape w d
              (upd st d 3 [EvPrint [PyStr "Chain id"; PyInt chain]]))
    as (r & d' & k & E & Hk & Hn).
  rewrite E, upd_upd. destruct r as [[]|e]; [|discriminate].
  rewrite (Hn eq_refl). rewrite print_fee_unfold.
  cbn [contracts clock upd] in *.
  destruct (getitem "ContractManager" d') as [cm|e] eqn:Ecm; [|discriminate].
  destruct (obj cm) as [o|] eqn:Eo; [|discriminate].
  replace (List.length d + 3 + clock st)
    with (S (S (S (List.length d + clock st)))) by lia.
  destruct (activationFee_call
              (ledger w (S (S (S (List.length d + clock st))))) o)
    as [fee|e] eqn:Ef; [|discriminate].
  intros _. exists chain, chain', d, cm, o, fee.
  cbn [fst snd contracts clock trace upd].
  split; [reflexivity |].
  split; [reflexivity |].
  split; [exact E3 |].
  split; [exact Hk |].
  split; [exact Ecm |].
  split; [exact Eo |].
  split; [exact Ef |].
  split; [lia |].
  rewrite <- !app_assoc. reflexivity.
Qed.

Lemma startup_reads_and_prints_witness :
  fst (startup (Worlds.accepting "plan") init) = Ok tt /\
  exists chain chain' d cm o fee,
    eth_chain_id (ledger (Worlds.accepting "plan") (clock init)) = Ok chain /\
    eth_chain_id (ledger (Worlds.accepting "plan") (1 + clock init))
      = Ok chain' /\
    load_contracts (ledger (Worlds.accepting "plan") (2 + clock init)) chain'
      = Ok d /\
    map fst (contracts (snd (startup (Worlds.accepting "plan") init)))
      = map fst d /\
    getitem "ContractManager"
      (contracts (snd (startup (Worlds.accepting "plan") init))) = Ok cm /\
    obj cm = Some o /\
    activationFee_call
      (ledger (Worlds.accepting "plan") (3 + List.length d + clock init)) o
      = Ok fee /\
    clock (snd (startup (Worlds.accepting "plan") init))
      = 4 + List.length d + clock init /\
    trace (snd (startup (Worlds.accepting "plan") init))
      = trace init ++ [EvPrint [PyStr "Chain id"; PyInt chain];
                       EvPrint [PyStr "Fee:"; PyInt fee]].
Proof.
  split; [reflexivity |].
  exact (startup_reads_and_prints (Worlds.accepting "plan") init eq_refl).
Defined.

(** X3: when the registry answers with dicts (no key twice), a start-up
    that succeeds leaves in [contracts] the registry's entries, in its
    order and with their addresses and abis, each with ["obj"] set to the
    contract [w3.eth.contract] returned for that entry's own address and
    abi; the entries were bound one after the other, from the fourth call
    of start-up on. *)
Theorem startup_binds_every_contract (w : World) (st : State) :
  dict_registry w ->
  fst (startup w st) = Ok tt ->
  exists chain d,
    eth_chain_id (ledger w (1 + clock st)) = Ok chain /\
    load_contracts (ledger w (2 + clock st)) chain = Ok d /\
    bound_from w (3 + clock st) d (contracts (snd (startup w st))).
Proof.
  intros Hreg. rewrite startup_unfold. simpl Nat.add.
  destruct (eth_chain_id (ledger w (clock st))) as [chain|e];
    [|discriminate].
  destruct (eth_chain_id (ledger w (S (clock st)))) as [chain'|e];
    [|discriminate].
  destruct (load_contracts (ledger w (S (S (clock st)))) chain') as [d|e] eqn:Ed;
    [|discriminate].
  destruct (bind_contracts w d
              (upd st d 3 [EvPrint [PyStr "Chain id"; PyInt chain]]))
    as [[[]|e] st3] eqn:E; [|discriminate].
  apply (bind_contracts_ok w d []) in E;
    [ | reflexivity | simpl; eapply Hreg; eauto ].
  destruct E as (items' & Ec & Hb). simpl in Ec, Hb.
  rewrite print_fee_unfold.
  destruct (getitem "ContractManager" (contracts st3)) as [cm|e];
    [|discriminate].
  destruct (obj cm) as [o|]; [|discriminate].
  destruct (activationFee_call (ledger w (clock st3)) o) as [fee|e];
    [|discriminate].
  intros _. exists chain', d. simpl. rewrite Ec. auto.
Qed.

Lemma accepting_dict_registry (answer : string) :
  dict_registry (Worlds.accepting answer).
Proof.
  intros t chain d H. simpl in H. inversion H; subst. simpl.
  repeat constructor; simpl; intuition discriminate.
Qed.

Lemma startup_binds_every_contract_witness :
  dict_registry (Worlds.accepting "plan") /\
  fst (startup (Worlds.accepting "plan") init) = Ok tt /\
  exists chain d,
    eth_chain_id (ledger (Worlds.accepting "plan") (1 + clock init))
      = Ok chain /\
    load_contracts (ledger (Worlds.accepting "plan") (2 + clock init)) chain
      = Ok d /\
    bound_from (Worlds.accepting "plan") (3 + clock init) d
      (contracts (snd (startup (Worlds.accepting "plan") init))).
Proof.
  split; [apply accepting_dict_registry |].
  split; [reflexivity |].
  exact (startup_binds_every_contract (Worlds.accepting "plan") init
           (accepting_dict_registry "plan") eq_refl).
Defined.

(** X4: against a node that answers and binds every contract, but whose
    registry names no ["ContractManager"], [main] ends at its first
    transition with [KeyError "ContractManager"]: only the chain id was
    printed, the registry's contracts were all bound first (three calls
    plus one per entry), the fee was never asked for, and nothing follows. *)
Theorem missing_manager_is_fatal (w : World) (L : Ledger) (chain : Z)
  (d : Dict Entry) :
  (forall t, ledger w t = L) ->
  eth_chain_id L = Ok chain ->
  load_contracts L chain = Ok d ->
  (forall a b, exists o, eth_contract L a b = Ok o) ->
  ~ In "ContractManager" (map fst d) ->
  outcome (main w 1) = Some (KeyError "ContractManager") /\
  clock (main w 1) = 3 + List.length d /\
  trace (main w 1) = [EvPrint [PyStr "Chain id"; PyInt chain]] /\
  forall n, main w (1 + n) = main w 1.
Proof.
  intros HL Hc Hd Hb Hm.
  assert (E : main w 1
              = goto (Raised (KeyError "ContractManager"))
                  (upd (upd init d 3 [EvPrint [PyStr "Chain id"; PyInt chain]])
                       (contracts
                          (snd (bind_contracts w d
                                  (upd init d 3
                                     [EvPrint [PyStr "Chain id"; PyInt chain]]))))
                       (List.length d) [])).
  { unfold main, task. simpl steps. unfold step. simpl control.
    rewrite startup_unfold, !HL, Hc, Hd.
    destruct (bind_contracts_shape w d
                (upd init d 3 [EvPrint [PyStr "Chain id"; PyInt chain]]))
      as (r & d' & k & Eb & Hk & Hn).
    rewrite Eb. destruct r as [[]|e].
    - rewrite (Hn eq_refl), print_fee_unfold. cbn [contracts upd snd].
      rewrite (getitem_missing "ContractManager" d'); [reflexivity |].
      rewrite Hk. exact Hm.
    - exfalso.
      destruct (bind_contracts_error w d _ e
                  (f_equal fst Eb)) as (t & a & b & Hr).
      rewrite HL in Hr. destruct (Hb a b) as [o Ho]. congruence. }
  split; [now rewrite E |].
  split; [rewrite E; simpl; lia |].
  split; [now rewrite E |].
  intros n. unfold main, task in *. rewrite steps_add.
  apply steps_raised with (e := KeyError "ContractManager"). now rewrite E.
Qed.

Lemma missing_manager_is_fatal_witness :
  (forall t, ledger without_manager t = node_without_manager) /\
  eth_chain_id node_without_manager = Ok 1337%Z /\
  load_contracts node_without_manager 1337%Z = Ok registry_without_manager /\
  (forall a b, exists o, eth_contract node_without_manager a b = Ok o) /\
  ~ In "ContractManager" (map fst registry_without_manager) /\
  outcome (main without_manager 1) = Some (KeyError "ContractManager") /\
  clock (main without_manager 1) = 3 + List.length registry_without_manager /\
  trace (main without_manager 1) = [EvPrint [PyStr "Chain id"; PyInt 1337]] /\
  forall n, main without_manager (1 + n) = main without_manager 1.
Proof.
  assert (Hb : forall a b, exists o, eth_contract node_without_manager a b = Ok o)
    by (intros a b; eexists; reflexivity).
  assert (Hm : ~ In "ContractManager" (map fst registry_without_manager))
    by (simpl; intuition discriminate).
  split; [intros t; reflexivity |].
  split; [reflexivity |].
  split; [reflexivity |].
  split; [exact Hb |].
  split; [exact Hm |].
  exact (missing_manager_is_fatal without_manager node_without_manager
           1337%Z registry_without_manager (fun t => eq_refl) eq_refl eq_refl
           Hb Hm).
Defined.

(** ** The exchange is never reached *)

Lemma existsb_exchange_prints (evs : list Event) :
  forallb is_print evs = true -> existsb is_exchange evs = false.
Proof.
  induction evs as [|ev evs IH]; simpl; auto.
  destruct ev; simpl; try discriminate. exact IH.
Qed.

Lemma before_exchange_init : before_exchange init.
Proof. split; reflexivity. Qed.

Lemma before_exchange_step (w : World) (st : State) :
  before_exchange st -> before_exchange (step w st).
Proof.
  intros [Ht Hc]. unfold before_exchange, step.
  destruct (control st) as [| |ws|ws cmd|ws cmd|ws|ws e|ws k|e] eqn:E;
    try contradiction.
  - destruct (startup_run w st) as (r & d & k & evs & Es & Hp).
    rewrite Es.
    assert (Ht' : existsb is_exchange (trace st ++ evs) = false).
    { rewrite existsb_app, Ht. now apply existsb_exchange_prints. }
    destruct r as [[]|e]; simpl; auto.
  - destruct (ws_connect w (clock st)) as [e|]; simpl; auto.
    rewrite existsb_app, Ht. auto.
  - simpl. auto.
  - subst e. simpl. auto.
  - subst k. simpl. rewrite existsb_app, Ht. auto.
  - rewrite E. auto.
Qed.

(** X5: in no run does control reach the send of line 33, the receive of
    line 34 or the print of line 35, and the [continue] of line 38 is
    never taken: the only exception the [try] block ever sees is the
    [TypeError] of line 31, which is not caught.  The body of [producer]
    never runs (no sleep), nothing is sent or received, and control is at
    the connect step only before any session was opened: there is no
    reconnection. *)
Theorem exchange_is_never_reached (w : World) (n : nat) :
  match control (task w n) with
  | AtSend _ _ | AtRecv _ _ | AtPrint _ | AtExit _ Continue => False
  | AtExcept _ e | AtExit _ (Propagate e) => e = missing_argument
  | AtStartup | AtConnect | AtProducer _ | Raised _ => True
  end /\
  existsb is_exchange (trace (task w n)) = false /\
  (control (task w n) = AtConnect -> opened (task w n) = 0).
Proof.
  assert (H : before_exchange (task w n)).
  { unfold task. apply steps_invariant.
    - apply before_exchange_step.
    - apply before_exchange_init. }
  destruct H as [Ht Hc]. split; [|split; [exact Ht |]].
  - destruct (control (task w n)) as [| |ws|ws cmd|ws cmd|ws|ws e|ws k|e];
      auto.
    subst k. reflexivity.
  - intros E. now rewrite E in Hc.
Qed.

(** ** The fee is printed and nothing else *)

Lemma bind_contracts_same_binding (w1 w2 : World) (items : Dict Entry) :
  (forall t a b,
     eth_contract (ledger w1 t) a b = eth_contract (ledger w2 t) a b) ->
  forall st1 st2,
    clock st1 = clock st2 ->
    contracts st1 = contracts st2 ->
    exists r d k,
      bind_contracts w1 items st1 = (r, upd st1 d k []) /\
      bind_contracts w2 items st2 = (r, upd st2 d k []).
Proof.
  intros Hb. induction items as [|[key c] rest IH]; intros st1 st2 Hk Hd.
  - exists (Ok tt), (contracts st1), 0. simpl. unfold ret.
    split; [now rewrite <- upd_id | rewrite Hd; now rewrite <- upd_id].
  - simpl. unfold bind. rewrite !w3_eth_contract_upd, Hk, Hb.
    destruct (eth_contract (ledger w2 (clock st2)) (address c) (abi c))
      as [o|e].
    + unfold get_contracts. rewrite !set_contracts_upd, !upd_upd.
      cbn [contracts upd Nat.add app].
      destruct (IH (upd st1 (update key (set_obj o) (contracts st1)) 1 [])
                   (upd st2 (update key (set_obj o) (contracts st2)) 1 []))
        as (r & d & k & E1 & E2).
      * simpl. now rewrite Hk.
      * simpl. now rewrite Hd.
      * exists r, d, (k + 1). rewrite E1, E2, !upd_upd. auto.
    + exists (Raise e), (contracts st1), 1. rewrite Hd. auto.
Qed.

Lemma startup_but_fee (w1 w2 : World) (st1 st2 : State) :
  same_but_fee w1 w2 ->
  similar_but_fee st1 st2 ->
  fst (startup w1 st1) = fst (startup w2 st2) /\
  similar_but_fee (snd (startup w1 st1)) (snd (startup w2 st2)).
Proof.
  intros (Hid & Hload & Hbind & Hfee & _) (Hc & Hd & Hl & Ho & Hk & Ht).
  rewrite !startup_unfold, Hk, !Hid.
  destruct (eth_chain_id (ledger w2 (clock st2))) as [chain|e].
  2:{ split; [reflexivity |]. unfold similar_but_fee; simpl.
      rewrite !map_app, Ht, Hc, Hd, Hl, Ho, Hk. repeat split. }
  destruct (eth_chain_id (ledger w2 (S (clock st2)))) as [chain'|e].
  2:{ split; [reflexivity |]. unfold similar_but_fee; simpl.
      rewrite !map_app, Ht, Hc, Hd, Hl, Ho, Hk. repeat split. }
  rewrite Hload.
  destruct (load_contracts (ledger w2 (S (S (clock st2)))) chain') as [d|e].
  2:{ split; [reflexivity |]. unfold similar_but_fee; simpl.
      rewrite !map_app, Ht, Hc, Hd, Hl, Ho, Hk. repeat split. }
  destruct (bind_contracts_same_binding w1 w2 d Hbind
              (upd st1 d 3 [EvPrint [PyStr "Chain id"; PyInt chain]])
              (upd st2 d 3 [EvPrint [PyStr "Chain id"; PyInt chain]]))
    as (r & d' & k & E1 & E2); [simpl; now rewrite Hk | reflexivity |].
  rewrite E1, E2, !upd_upd. destruct r as [[]|e].
  2:{ split; [reflexivity |]. unfold similar_but_fee; simpl.
      rewrite !map_app, Ht, Hc, Hl, Ho, Hk. repeat split. }
  rewrite !print_fee_unfold. cbn [contracts clock upd].
  destruct (getitem "ContractManager" d') as [cm|e].
  2:{ split; [reflexivity |]. unfold similar_but_fee; simpl.
      rewrite !map_app, Ht, Hc, Hl, Ho, Hk. repeat split. }
  destruct (obj cm) as [o|].
  2:{ split; [reflexivity |]. unfold similar_but_fee; simpl.
      rewrite !map_app, Ht, Hc, Hl, Ho, Hk. repeat split. }
  rewrite Hk. specialize (Hfee (k + 3 + clock st2) o).
  destruct (activationFee_call (ledger w1 (k + 3 + clock st2)) o) as [f1|e1],
           (activationFee_call (ledger w2 (k + 3 + clock st2)) o) as [f2|e2];
    try contradiction; subst;
    (split; [reflexivity |]); unfold similar_but_fee; simpl;
    rewrite !map_app, Ht, Hc, Hl, Ho, Hk; repeat split.
Qed.

Lemma similar_but_fee_step (w1 w2 : World) (st1 st2 : State) :
  same_but_fee w1 w2 ->
  similar_but_fee st1 st2 ->
  similar_but_fee (step w1 st1) (step w2 st2).
Proof.
  intros Hw Hs.
  pose proof (startup_but_fee w1 w2 st1 st2 Hw Hs) as [Hr Hst].
  destruct Hw as (_ & _ & _ & _ & HC & HS & HR).
  destruct Hs as (Hc & Hd & Hl & Ho & Hk & Ht).
  unfold step. rewrite <- Hc.
  destruct (control st1) as [| |ws|ws cmd|ws cmd|ws|ws e|ws k|e] eqn:Hc1.
  - destruct (startup w1 st1) as [r1 s1], (startup w2 st2) as [r2 s2].
    simpl in Hr, Hst. subst r2.
    destruct Hst as (_ & Hd' & Hl' & Ho' & Hk' & Ht').
    destruct r1 as [[]|e]; unfold similar_but_fee; simpl; auto 10.
  - rewrite Hk, HC.
    destruct (ws_connect w2 (clock st2)) as [e|]; unfold similar_but_fee;
      simpl; rewrite ?map_app, Ht, Hd, Hl, Ho, Hk; repeat split.
  - unfold similar_but_fee; simpl. repeat split; auto.
  - rewrite Hk, HS.
    destruct (ws_send w2 (clock st2) ws cmd) as [e|]; unfold similar_but_fee;
      simpl; rewrite ?map_app, Ht, Hd, Hl, Ho, Hk; repeat split.
  - rewrite Hk, HR.
    destruct (ws_recv w2 (clock st2) ws) as [rec|e]; unfold similar_but_fee;
      simpl; rewrite ?map_app, Ht, Hd, Hl, Ho, Hk; repeat split.
  - unfold similar_but_fee; simpl.
    rewrite !map_app, Ht, Hd, Hl, Ho, Hk. repeat split.
  - unfold similar_but_fee; simpl. repeat split; auto.
  - destruct k as [|e]; unfold similar_but_fee; simpl;
      rewrite !map_app, Ht, Hd, Hl, Ho, Hk; repeat split.
  - unfold similar_but_fee. repeat split; auto. congruence.
Qed.

(** X6: the activation fee read at line 25 is printed and nothing else is
    done with it: against two worlds that differ in nothing but the value
    of the fee, two runs from the same state are, after any number of
    transitions, at the same program point with the same [contracts], the
    same sessions and the same number of calls made, and their traces
    differ at most in the fee printed. *)
Theorem fee_is_only_printed (w1 w2 : World) (st : State) (n : nat) :
  same_but_fee w1 w2 ->
  similar_but_fee (steps w1 n st) (steps w2 n st).
Proof.
  intros Hw.
  assert (H : forall st1 st2, similar_but_fee st1 st2 ->
                similar_but_fee (steps w1 n st1) (steps w2 n st2)).
  { induction n as [|n IH]; simpl; intros st1 st2 Hs; auto.
    apply IH. now apply similar_but_fee_step. }
  apply H. repeat split.
Qed.

Lemma charging_same_but_fee (fee1 fee2 : Z) :
  same_but_fee (charging fee1) (charging fee2).
Proof. repeat split. Qed.

Lemma fee_is_only_printed_witness :
  same_but_fee (charging 100) (charging 0) /\
  similar_but_fee (steps (charging 100) 5 init) (steps (charging 0) 5 init).
Proof.
  split; [apply charging_same_but_fee |].
  exact (fee_is_only_printed (charging 100) (charging 0) init 5
           (charging_same_but_fee 100 0)).
Defined.

(** The two runs of [charging] do print different fees. *)
Example fees_differ :
  trace (task (charging 100) 1)
    = [EvPrint [PyStr "Chain id"; PyInt 1337]; EvPrint [PyStr "Fee:"; PyInt 100]] /\
  trace (task (charging 0) 1)
    = [EvPrint [PyStr "Chain id"; PyInt 1337]; EvPrint [PyStr "Fee:"; PyInt 0]].
Proof. split; reflexivity. Qed.

(** ** One connection attempt *)

Lemma one_attempt_init (w : World) : one_attempt w init.
Proof. split; [apply before_exchange_init | reflexivity]. Qed.

Lemma one_attempt_step (w : World) (st : State) :
  one_attempt w st -> one_attempt w (step w st).
Proof.
  intros [Hb Hc]. split; [now apply before_exchange_step |].
  destruct Hb as [_ Hb]. unfold step.
  destruct (control st) as [| |ws|ws cmd|ws cmd|ws|ws e|ws k|e] eqn:E;
    try contradiction.
  - subst st. unfold task. simpl steps. unfold step. simpl control.
    destruct (startup w init) as [[[]|e] st']; simpl; auto.
  - destruct (ws_connect w (clock st)) as [e|]; simpl; lia.
  - simpl. exact Hc.
  - simpl. exact Hc.
  - subst k. simpl. exact Hc.
  - rewrite E. exact Hc.
Qed.

(** X8: whatever the server does, a run makes at most one external call
    after those of start-up: the one connection attempt.  A refused
    connection is not tried again, and an accepted one is followed by no
    send and no receive. *)
Theorem at_most_one_connection_attempt (w : World) (n : nat) :
  clock (task w n) <= 1 + clock (task w 1).
Proof.
  assert (H : one_attempt w (task w n)).
  { unfold task at 1. apply steps_invariant.
    - apply one_attempt_step.
    - apply one_attempt_init. }
  destruct H as [_ H].
  destruct (control (task w n)) eqn:E; try exact H; try lia.
  rewrite H. simpl. lia.
Qed.

(** ** Where a start-up exception comes from *)

(** X2: when the registry answers with dicts (no key twice), an exception
    that ends start-up is the exception of one of its reads, made at its
    own instant and with its own arguments, the reads before it having
    succeeded: the first or the second request for the chain id, the
    registry lookup, the binding of one of the entries, the call of
    [activationFee] on the contract bound for ["ContractManager"]; or it
    is [KeyError "ContractManager"], the registry naming no such contract.
    Start-up raises nothing else. *)
Theorem startup_error_is_a_failed_read (w : World) (e : Exn) :
  dict_registry w ->
  fst (startup w init) = Raise e ->
  startup_read_fails w e.
Proof.
  intros Hreg. rewrite startup_unfold. simpl clock.
  destruct (eth_chain_id (ledger w 0)) as [chain|e1] eqn:E1.
  2:{ simpl. intros H. inversion H; subst. now apply chain_id_fails. }
  destruct (eth_chain_id (ledger w 1)) as [chain'|e2] eqn:E2.
  2:{ simpl. intros H. inversion H; subst.
      now apply chain_id_again_fails with (chain := chain). }
  destruct (load_contracts (ledger w 2) chain') as [d|e3] eqn:E3.
  2:{ simpl. intros H. inversion H; subst.
      now apply registry_fails with (chain := chain) (chain' := chain'). }
  assert (Hnd : NoDup (map fst d)) by (eapply Hreg; eauto).
  destruct (bind_contracts w d
              (upd init d 3 [EvPrint [PyStr "Chain id"; PyInt chain]]))
    as [[[]|e4] st4] eqn:Eb.
  - destruct (bind_contracts_shape w d
                (upd init d 3 [EvPrint [PyStr "Chain id"; PyInt chain]]))
      as (r & d'' & k & Es & _ & Hn).
    rewrite Eb in Es.
    assert (Hr : r = Ok tt) by congruence. subst r.
    specialize (Hn eq_refl). subst k.
    assert (Hclk : clock st4 = 3 + List.length d).
    { assert (Hst : st4 = upd (upd init d 3
                                   [EvPrint [PyStr "Chain id"; PyInt chain]])
                              d'' (List.length d) []) by congruence.
      rewrite Hst. simpl. lia. }
    destruct (bind_contracts_ok w d []
                (upd init d 3 [EvPrint [PyStr "Chain id"; PyInt chain]])
                st4 eq_refl Hnd Eb)
      as (d' & Ec & Hb).
    simpl in Ec, Hb. rewrite print_fee_unfold, Ec, Hclk.
    destruct (getitem "ContractManager" d') as [cm|e5] eqn:G.
    + destruct (obj cm) as [o|] eqn:Eo.
      * destruct (activationFee_call (ledger w (3 + List.length d)) o)
          as [fee|e6] eqn:Ef; simpl; intros H; [discriminate |].
        assert (He : e6 = e) by congruence. rewrite He in Ef.
        now apply fee_fails with (chain := chain) (chain' := chain')
                                 (d := d) (d' := d') (cm := cm) (o := o).
      * exfalso. now apply (bound_from_obj w d "ContractManager" cm 3 d' Hb G).
    + simpl. intros H.
      pose proof (getitem_error _ _ _ G) as Hk.
      assert (He : e = KeyError "ContractManager") by congruence.
      rewrite He.
      apply manager_missing with (chain := chain) (chain' := chain')
                                 (d := d) (d' := d'); auto.
      rewrite <- (bound_from_keys w d 3 d' Hb).
      now apply getitem_raise_not_in with (e := e5).
  - simpl. intros H.
    assert (He : e4 = e) by congruence. rewrite He in Eb.
    apply binding_fails with (chain := chain) (chain' := chain') (d := d);
      auto.
    apply (bind_raises_binding w d
             (upd init d 3 [EvPrint [PyStr "Chain id"; PyInt chain]]) e).
    now rewrite Eb.
Qed.

Lemma without_manager_dict_registry : dict_registry without_manager.
Proof.
  intros t chain d H. simpl in H. inversion H; subst. simpl.
  repeat constructor; simpl; intuition discriminate.
Qed.

Lemma startup_error_is_a_failed_read_witness :
  dict_registry without_manager /\
  fst (startup without_manager init) = Raise (KeyError "ContractManager") /\
  startup_read_fails without_manager (KeyError "ContractManager").
Proof.
  split; [exact without_manager_dict_registry |].
  split; [reflexivity |].
  exact (startup_error_is_a_failed_read without_manager
           (KeyError "ContractManager") without_manager_dict_registry eq_refl).
Defined.
